(** * pg_uuidv7: UUID version 7 codec of the PostgreSQL extension

    A shallow embedding of [pg_uuidv7.c].  Bytes are [Init.Byte.byte],
    a [uint64_t] is a [Z] with its wrap-around written out, a buffer is a
    [list byte] updated in place, and the two external calls that can fail
    (the clock and the random source) together with everything the C code
    leaves unspecified (host byte order, contents of fresh [palloc] memory
    and of an uninitialised local) are collected in a [host] record. *)

From Stdlib Require Import String ZArith List Lia Bool.
From coqutil Require Import Byte Word.LittleEndianList Datatypes.List.
From coqutil Require Import Z.bitblast Z.prove_Zeq_bitwise.
Import ListNotations.
Local Open Scope Z_scope.

(** ** C integer types *)

Module C.

(** Conversion to [uint64_t]: reduction modulo 2^64. *)
Definition to_uint64 (z : Z) : Z := z mod 2 ^ 64.

(** Conversion to [int64_t] (two's complement). *)
Definition to_int64 (z : Z) : Z := (z + 2 ^ 63) mod 2 ^ 64 - 2 ^ 63.

(** Operators at type [uint64_t]; the operands are values of that type,
    so [/] and [>>] need no wrap-around. *)
Definition add (a b : Z) : Z := to_uint64 (a + b).
Definition sub (a b : Z) : Z := to_uint64 (a - b).
Definition mul (a b : Z) : Z := to_uint64 (a * b).
Definition div (a b : Z) : Z := a / b.
Definition shl (a n : Z) : Z := to_uint64 (Z.shiftl a n).
Definition shr (a n : Z) : Z := Z.shiftr a n.

(** The range of a signed 64-bit value. *)
Definition is_int64 (z : Z) : Prop := - 2 ^ 63 <= z < 2 ^ 63.

End C.

(** ** Constants of the PostgreSQL headers

    The headers that [pg_uuidv7.c] includes belong to PostgreSQL, not to
    the extension.  [utils/uuid.h] gives [UUID_LEN], and
    [datatype/timestamp.h] (through [utils/timestamp.h]) the Julian dates
    of 1970-01-01 and 2000-01-01 and the microseconds of a day; the values
    below are PostgreSQL's.  [EPOCH_DIFF_USECS] is the macro of
    [pg_uuidv7.c], line 13. *)

Definition UUID_LEN : nat := 16.
Definition POSTGRES_EPOCH_JDATE : Z := 2451545.
Definition UNIX_EPOCH_JDATE : Z := 2440588.
Definition USECS_PER_DAY : Z := 86400000000.

Definition EPOCH_DIFF_USECS : Z :=
  (POSTGRES_EPOCH_JDATE - UNIX_EPOCH_JDATE) * USECS_PER_DAY.

(** ** Memory *)

Inductive endianness : Type := LittleEndian | BigEndian.

(** The eight bytes of a [uint64_t] object, in address order. *)
Definition object_bytes (bo : endianness) (v : Z) : list byte :=
  match bo with
  | LittleEndian => le_split 8 v
  | BigEndian => rev (le_split 8 v)
  end.

(** The value of a [uint64_t] object whose bytes are [bs]. *)
Definition object_value (bo : endianness) (bs : list byte) : Z :=
  match bo with
  | LittleEndian => le_combine bs
  | BigEndian => le_combine (rev bs)
  end.

(** [pg_bswap64] of PostgreSQL's [port/pg_bswap.h], in its portable form
    (a compiler builtin with the same result replaces it where there is
    one). *)
Definition pg_bswap64 (x : Z) : Z :=
  Z.lor (Z.land (C.shl x 56) 0xff00000000000000)
 (Z.lor (Z.land (C.shl x 40) 0x00ff000000000000)
 (Z.lor (Z.land (C.shl x 24) 0x0000ff0000000000)
 (Z.lor (Z.land (C.shl x 8)  0x000000ff00000000)
 (Z.lor (Z.land (C.shr x 8)  0x00000000ff000000)
 (Z.lor (Z.land (C.shr x 24) 0x0000000000ff0000)
 (Z.lor (Z.land (C.shr x 40) 0x000000000000ff00)
        (Z.land (C.shr x 56) 0x00000000000000ff))))))).

(** [pg_hton64] and [pg_ntoh64]: a swap on a little-endian host, nothing on
    a big-endian one. *)
Definition pg_hton64 (bo : endianness) (x : Z) : Z :=
  match bo with
  | LittleEndian => pg_bswap64 x
  | BigEndian => x
  end.

Definition pg_ntoh64 (bo : endianness) (x : Z) : Z := pg_hton64 bo x.

(** [memcpy(&dst[off], src, n)] and [memset(&dst[off], c, n)].  Every call
    in [pg_uuidv7.c] has constant bounds that lie inside both buffers. *)
Definition memcpy (dst : list byte) (off : nat) (src : list byte) (n : nat)
  : list byte :=
  List.upds dst off (firstn n src).

Definition memset (dst : list byte) (off : nat) (c : byte) (n : nat)
  : list byte :=
  List.upds dst off (repeat c n).

(** [dst[i]]. *)
Definition get (dst : list byte) (i : nat) : byte := nth i dst Byte.x00.

(** ** Errors

    [ereport(ERROR, ...)] does not return: the call ends with the error and
    nothing else reaches the caller. *)

Inductive sqlstate : Type := ERRCODE_INTERNAL_ERROR.

Inductive outcome (A : Type) : Type :=
| Return (a : A)
| Ereport (code : sqlstate) (errmsg : string).

Arguments Return {A} a.
Arguments Ereport {A} code errmsg.

Definition bind {A B : Type} (c : outcome A) (k : A -> outcome B) : outcome B :=
  match c with
  | Return a => k a
  | Ereport code msg => Ereport code msg
  end.

Notation "x <- c ;; k" := (bind c (fun x => k))
  (at level 61, c at next level, right associativity).

(** [if (!call) ereport(ERROR, (errcode(ERRCODE_INTERNAL_ERROR), errmsg(msg)))]. *)
Definition or_ereport {A : Type} (call : option A) (msg : string) : outcome A :=
  match call with
  | Some a => Return a
  | None => Ereport ERRCODE_INTERNAL_ERROR msg
  end.

Definition ClockUnavailable {A : Type} : outcome A :=
  Ereport ERRCODE_INTERNAL_ERROR "could not get CLOCK_REALTIME"%string.

Definition RandomUnavailable {A : Type} : outcome A :=
  Ereport ERRCODE_INTERNAL_ERROR "could not generate random values"%string.

(** ** The host *)

Record timespec : Type := { tv_sec : Z; tv_nsec : Z }.

Record host : Type := {
  (** byte order of the machine *)
  byte_order : endianness;
  (** what [clock_gettime(CLOCK_REALTIME, &ts)] stores, [None] when it
      returns non-zero *)
  clock_realtime : option timespec;
  (** the bytes the random source delivers, [None] when it fails *)
  strong_random : option (nat -> byte);
  (** contents of memory fresh from [palloc] *)
  palloc_junk : nat -> byte;
  (** contents of an uninitialised [uint64_t] local *)
  stack_junk : Z
}.

Definition palloc (h : host) (n : nat) : list byte :=
  map (palloc_junk h) (seq 0 n).

Definition clock_gettime (h : host) : option timespec := clock_realtime h.

(** [pg_strong_random(&buf[off], len)]: fills [len] bytes, or fails. *)
Definition pg_strong_random (h : host) (buf : list byte) (off len : nat)
  : option (list byte) :=
  match strong_random h with
  | Some r => Some (List.upds buf off (map r (seq 0 len)))
  | None => None
  end.

(** ** The codec *)

(** The 12-bit fraction of [uuid_generate_v7], lines 48-53:
    [(((uint64_t)ts.tv_nsec << 12) / 1000000) & 0x0fff]. *)
Definition submilli_fraction (nsec : Z) : Z :=
  Z.land (C.div (C.shl (C.to_uint64 nsec) 12) 1000000) 0x0fff.

(** [(b & 0x0f) | 0x70] and [(b & 0x3f) | 0x80], stored back into a byte. *)
Definition version_bits (b : byte) : byte :=
  byte.of_Z (Z.lor (Z.land (byte.unsigned b) 0x0f) 0x70).

Definition variant_bits (b : byte) : byte :=
  byte.of_Z (Z.lor (Z.land (byte.unsigned b) 0x3f) 0x80).

(** [data[6] = (data[6] & 0x0f) | 0x70] and [data[8] = (data[8] & 0x3f) | 0x80]. *)
Definition set_version (uuid : list byte) : list byte :=
  List.upd uuid 6 (version_bits (get uuid 6)).

Definition set_variant (uuid : list byte) : list byte :=
  List.upd uuid 8 (variant_bits (get uuid 8)).

(** Line 33: [((uint64_t)ts.tv_sec * 1000) + ((uint64_t)ts.tv_nsec / 1000000)]. *)
Definition millis_of_timespec (ts : timespec) : Z :=
  C.add (C.mul (C.to_uint64 (tv_sec ts)) 1000)
        (C.div (C.to_uint64 (tv_nsec ts)) 1000000).

Definition uuid_generate_v7 (h : host) : outcome (list byte) :=
  let uuid := palloc h UUID_LEN in
  ts <- or_ereport (clock_gettime h) "could not get CLOCK_REALTIME" ;;
  let tms := millis_of_timespec ts in
  let tms := pg_hton64 (byte_order h)
               (Z.lor (Z.lor (C.shl tms 16) 0x7000)
                      (submilli_fraction (tv_nsec ts))) in
  let uuid := memcpy uuid 0 (object_bytes (byte_order h) tms) 8 in
  uuid <- or_ereport (pg_strong_random h uuid 8 (UUID_LEN - 8))
                     "could not generate random values" ;;
  let uuid := set_variant uuid in
  Return uuid.

Definition uuid_v7_to_uint64 (h : host) (uuid : list byte) : Z :=
  let ts := stack_junk h in
  let ts := object_value (byte_order h)
              (memcpy (object_bytes (byte_order h) ts) 0 uuid 6) in
  let ts := C.shr (pg_ntoh64 (byte_order h) ts) 16 in
  let ts := C.sub (C.mul 1000 ts) (C.to_uint64 EPOCH_DIFF_USECS) in
  ts.

(** [PG_RETURN_TIMESTAMPTZ] and [PG_RETURN_TIMESTAMP] hand the value back
    as the signed 64-bit [TimestampTz] / [Timestamp]. *)
Definition uuid_v7_to_timestamptz (h : host) (uuid : list byte) : outcome Z :=
  let ts := uuid_v7_to_uint64 h uuid in
  Return (C.to_int64 ts).

Definition uuid_v7_to_timestamp (h : host) (uuid : list byte) : outcome Z :=
  let ts := uuid_v7_to_uint64 h uuid in
  Return (C.to_int64 ts).

(** Line 109: [(ts + EPOCH_DIFF_USECS) / 1000] at type [uint64_t]. *)
Definition millis_of_timestamp (ts : Z) : Z :=
  C.div (C.add ts (C.to_uint64 EPOCH_DIFF_USECS)) 1000.

Definition uuid_uint64_to_v7 (h : host) (ts : Z) (zero : bool)
  : outcome (list byte) :=
  let uuid := palloc h UUID_LEN in
  let tms := millis_of_timestamp ts in
  let tms := pg_hton64 (byte_order h) (C.shl tms 16) in
  let uuid := memcpy uuid 0 (object_bytes (byte_order h) tms) 6 in
  uuid <- (if zero
           then Return (memset uuid 6 Byte.x00 (UUID_LEN - 6))
           else or_ereport (pg_strong_random h uuid 6 (UUID_LEN - 6))
                           "could not generate random values") ;;
  let uuid := set_version uuid in
  let uuid := set_variant uuid in
  Return uuid.

(** The second SQL argument may be NULL ([PG_ARGISNULL(1)]); [zero] then
    keeps its initial value [false]. *)
Definition uuid_timestamptz_to_v7 (h : host) (ts : Z) (arg1 : option bool)
  : outcome (list byte) :=
  let zero := match arg1 with Some b => b | None => false end in
  uuid_uint64_to_v7 h (C.to_uint64 ts) zero.

Definition uuid_timestamp_to_v7 (h : host) (ts : Z) (arg1 : option bool)
  : outcome (list byte) :=
  let zero := match arg1 with Some b => b | None => false end in
  uuid_uint64_to_v7 h (C.to_uint64 ts) zero.

(** ** Vocabulary of the specification *)

(** A byte sequence read as a big-endian unsigned integer, and the [n]
    big-endian bytes of a value. *)
Definition be_combine (bs : list byte) : Z := le_combine (rev bs).
Definition be_split (n : nat) (v : Z) : list byte := rev (le_split n v).

(** The 48-bit millisecond field: bytes 0-5. *)
Definition uuid_millis (uuid : list byte) : Z := be_combine (firstn 6 uuid).

(** The top nibble of byte 6 and the top two bits of byte 8. *)
Definition uuid_version (uuid : list byte) : Z :=
  Z.shiftr (byte.unsigned (get uuid 6)) 4.
Definition uuid_variant (uuid : list byte) : Z :=
  Z.shiftr (byte.unsigned (get uuid 8)) 6.

(** Byte-wise lexicographic comparison, as [memcmp] orders two buffers. *)
Fixpoint bytes_compare (a b : list byte) : comparison :=
  match a, b with
  | [], [] => Eq
  | [], _ :: _ => Lt
  | _ :: _, [] => Gt
  | x :: a', y :: b' =>
      match byte.compare x y with
      | Eq => bytes_compare a' b'
      | c => c
      end
  end.

(** The fraction as the specification writes it:
    [(nanoseconds_within_ms * 4096) / 1_000_000], truncating. *)
Definition fraction_reference (nsec : Z) : Z :=
  Z.quot (Z.rem nsec 1000000 * 4096) 1000000.

(** A PostgreSQL timestamp (microseconds since 2000-01-01) as microseconds
    since the Unix epoch. *)
Definition unix_usecs (ts : Z) : Z := ts + EPOCH_DIFF_USECS.

(** The ten bytes after the timestamp, as [uuid_uint64_to_v7] leaves
    them when the fill bytes are [r 0 .. r 9]. *)
Definition tail10 (r : nat -> byte) : list byte :=
  [version_bits (r 0%nat); r 1%nat; variant_bits (r 2%nat); r 3%nat;
   r 4%nat; r 5%nat; r 6%nat; r 7%nat; r 8%nat; r 9%nat].

(** The first 64 bits of [uuid_generate_v7], the argument of [pg_hton64]
    in lines 45-53. *)
Definition v7_word (ts : timespec) : Z :=
  Z.lor (Z.lor (C.shl (millis_of_timespec ts) 16) 0x7000)
        (submilli_fraction (tv_nsec ts)).

(** The eight bytes after the first 64 bits of [uuid_generate_v7]. *)
Definition tail8 (r : nat -> byte) : list byte :=
  [variant_bits (r 0%nat); r 1%nat; r 2%nat; r 3%nat;
   r 4%nat; r 5%nat; r 6%nat; r 7%nat].

(** Where the fill bytes come from: [memset] or the random source. *)
Definition fill_source (h : host) (zero : bool) : option (nat -> byte) :=
  if zero then Some (fun _ => Byte.x00) else strong_random h.

(** The millisecond count of a clock reading, as the specification puts
    it: [millis = seconds*1000 + nanoseconds/1_000_000]. *)
Definition unix_millis (ts : timespec) : Z :=
  tv_sec ts * 1000 + tv_nsec ts / 1000000.

(** The ten bytes that follow the timestamp in a zero-filled UUID. *)
Definition zero_fill_tail : list byte :=
  [Byte.x70; Byte.x00; Byte.x80; Byte.x00; Byte.x00;
   Byte.x00; Byte.x00; Byte.x00; Byte.x00; Byte.x00].

(** The six leading bytes of the decoding scenario, and a UUID that starts
    with them. *)
Definition scenario_prefix : list byte :=
  [Byte.x01; Byte.x8e; Byte.x38; Byte.x3b; Byte.x3c; Byte.x80].

Definition scenario_uuid : list byte :=
  scenario_prefix ++
  [Byte.x7a; Byte.xbc; Byte.x9d; Byte.xef; Byte.x01;
   Byte.x23; Byte.x45; Byte.x67; Byte.x89; Byte.xab].

(** The millisecond value of a timestamp after the wrap-around of the
    64-bit sum and the cut to 48 bits. *)
Definition wrapped_millis (ts : Z) : Z :=
  (((ts + EPOCH_DIFF_USECS) mod 2 ^ 64) / 1000) mod 2 ^ 48.

(** [zero] as the two SQL entry points read it from their second argument. *)
Definition zero_arg (arg1 : option bool) : bool :=
  match arg1 with Some b => b | None => false end.

(** What [clock_gettime] stores on success: nanoseconds below one second. *)
Definition valid_timespec (ts : timespec) : Prop :=
  0 <= tv_nsec ts < 1000000000.

(** Two hosts to run the code on. *)
Definition host_le : host :=
  {| byte_order := LittleEndian;
     clock_realtime := Some {| tv_sec := 1700000000; tv_nsec := 123456789 |};
     strong_random := Some (fun i => byte.of_Z (255 - Z.of_nat i));
     palloc_junk := fun _ => Byte.xaa;
     stack_junk := 0xdeadbeefcafebabe |}.

Definition host_be : host :=
  {| byte_order := BigEndian;
     clock_realtime := Some {| tv_sec := 1700000000; tv_nsec := 124000000 |};
     strong_random := Some (fun i => byte.of_Z (Z.of_nat i));
     palloc_junk := fun _ => Byte.x55;
     stack_junk := 0 |}.

(** What [uuid_generate_v7] returns on [host_le]. *)
Definition generated_le : list byte :=
  [Byte.x01; Byte.x8b; Byte.xcf; Byte.xe5; Byte.x68; Byte.x7b;
   Byte.x77; Byte.x4f; Byte.xbf; Byte.xfe; Byte.xfd; Byte.xfc;
   Byte.xfb; Byte.xfa; Byte.xf9; Byte.xf8].

(** A third host: the random source of [host_le], everything else changed. *)
Definition host_other : host :=
  {| byte_order := BigEndian;
     clock_realtime := None;
     strong_random := strong_random host_le;
     palloc_junk := fun i => byte.of_Z (Z.of_nat i);
     stack_junk := 1 |}.

(** The instant of a clock reading in nanoseconds since the Unix epoch,
    and the PostgreSQL timestamp (microseconds since 2000-01-01) of the
    same instant. *)
Definition unix_nanos (ts : timespec) : Z :=
  tv_sec ts * 1000000000 + tv_nsec ts.

Definition pg_timestamp_of (ts : timespec) : Z :=
  unix_nanos ts / 1000 - EPOCH_DIFF_USECS.

(** The 12 bits between the version nibble and the variant: low nibble of
    byte 6, then byte 7. *)
Definition uuid_fraction (uuid : list byte) : Z :=
  Z.land (byte.unsigned (get uuid 6)) 0x0f * 256 + byte.unsigned (get uuid 7).

(** [a] is byte for byte at most [b]. *)
Definition bytes_below (a b : list byte) : Prop :=
  Forall2 (fun x y => byte.unsigned x <= byte.unsigned y) a b.

(** What the encoders return, with zero fill, for the microsecond before
    the Unix epoch. *)
Definition encoded_before_1970 : list byte :=
  [Byte.x89; Byte.x37; Byte.x4b; Byte.xc6; Byte.xa7; Byte.xef;
   Byte.x70; Byte.x00; Byte.x80; Byte.x00; Byte.x00; Byte.x00;
   Byte.x00; Byte.x00; Byte.x00; Byte.x00].

(** [host_le] with a clock reading 245 ns later. *)
Definition host_later : host :=
  {| byte_order := LittleEndian;
     clock_realtime := Some {| tv_sec := 1700000000; tv_nsec := 123457034 |};
     strong_random := Some (fun _ => Byte.x00);
     palloc_junk := fun _ => Byte.xaa;
     stack_junk := 0 |}.

(** * Byte order *)

Section ByteOrder.

Lemma pg_bswap64_bytes (x : Z) :
  pg_bswap64 x = le_combine (rev (le_split 8 x)).
Proof.
  unfold pg_bswap64, C.shl, C.shr, C.to_uint64.
  cbv [le_split rev app le_combine].
  rewrite !byte.unsigned_of_Z. unfold byte.wrap.
  rewrite !Z.shiftr_shiftr by lia. cbn [Z.add Pos.add Pos.succ].
  rewrite <- !Z.land_ones by lia.
  change 0xff00000000000000 with (Z.shiftl (Z.ones 8) 56).
  change 0x00ff000000000000 with (Z.shiftl (Z.ones 8) 48).
  change 0x0000ff0000000000 with (Z.shiftl (Z.ones 8) 40).
  change 0x000000ff00000000 with (Z.shiftl (Z.ones 8) 32).
  change 0x00000000ff000000 with (Z.shiftl (Z.ones 8) 24).
  change 0x0000000000ff0000 with (Z.shiftl (Z.ones 8) 16).
  change 0x000000000000ff00 with (Z.shiftl (Z.ones 8) 8).
  change 0x00000000000000ff with (Z.ones 8).
  prove_Zeq_bitwise.
Qed.

Lemma length_be_split n v : length (be_split n v) = n.
Proof. unfold be_split. now rewrite length_rev, length_le_split. Qed.

(** Whatever the host, the bytes of [pg_hton64 v] in memory are the
    big-endian bytes of [v]. *)
Lemma hton_object_bytes bo v :
  object_bytes bo (pg_hton64 bo v) = be_split 8 v.
Proof.
  destruct bo; cbn [object_bytes pg_hton64]; [| reflexivity].
  rewrite pg_bswap64_bytes. unfold be_split.
  rewrite split_le_combine'; [reflexivity |].
  rewrite length_rev. apply length_le_split.
Qed.

(** Whatever the host, [pg_ntoh64] of an object reads its bytes
    big-endian. *)
Lemma ntoh_object_value bo bs :
  length bs = 8%nat ->
  pg_ntoh64 bo (object_value bo bs) = be_combine bs.
Proof.
  intros Hlen. unfold pg_ntoh64, be_combine.
  destruct bo; cbn [object_value pg_hton64]; [| reflexivity].
  rewrite pg_bswap64_bytes.
  rewrite split_le_combine' by exact Hlen. reflexivity.
Qed.

Lemma length_object_bytes bo v : length (object_bytes bo v) = 8%nat.
Proof.
  destruct bo; cbn [object_bytes];
    now rewrite ?length_rev, length_le_split.
Qed.

Lemma le_combine_cons_add b bs :
  le_combine (b :: bs) = byte.unsigned b + 256 * le_combine bs.
Proof.
  change (le_combine (b :: bs))
    with (Z.lor (byte.unsigned b) (Z.shiftl (le_combine bs) 8)).
  rewrite Z.or_to_plus.
  - rewrite Z.shiftl_mul_pow2 by lia. change (2 ^ 8) with 256. lia.
  - rewrite <- (byte.wrap_unsigned b). unfold byte.wrap.
    rewrite <- Z.land_ones by lia. prove_Zeq_bitwise.
Qed.

Lemma le_combine_app_add a b :
  le_combine (a ++ b) =
  le_combine a + 2 ^ (8 * Z.of_nat (length a)) * le_combine b.
Proof.
  induction a as [| x a IH].
  - cbn [app length]. rewrite le_combine_nil.
    change (2 ^ (8 * Z.of_nat 0)) with 1. lia.
  - cbn [app]. rewrite !le_combine_cons_add, IH. cbn [length].
    rewrite Nat2Z.inj_succ.
    replace (8 * Z.succ (Z.of_nat (length a)))
      with (8 + 8 * Z.of_nat (length a)) by lia.
    rewrite Z.pow_add_r by lia. change (2 ^ 8) with 256. ring.
Qed.

Lemma be_combine_app a b :
  be_combine (a ++ b) =
  be_combine a * 2 ^ (8 * Z.of_nat (length b)) + be_combine b.
Proof.
  unfold be_combine. rewrite rev_app_distr, le_combine_app_add, length_rev.
  ring.
Qed.

Lemma be_combine_cons x a :
  be_combine (x :: a) =
  byte.unsigned x * 2 ^ (8 * Z.of_nat (length a)) + be_combine a.
Proof.
  change (x :: a) with ([x] ++ a). rewrite be_combine_app. f_equal.
  unfold be_combine. cbn [rev app].
  rewrite le_combine_cons_add, le_combine_nil. lia.
Qed.

Lemma be_combine_bound bs :
  0 <= be_combine bs < 2 ^ (8 * Z.of_nat (length bs)).
Proof.
  unfold be_combine. rewrite <- (length_rev bs). apply le_combine_bound.
Qed.

Lemma be_combine_split n v :
  be_combine (be_split n v) = v mod 2 ^ (Z.of_nat n * 8).
Proof.
  unfold be_combine, be_split. rewrite rev_involutive.
  apply le_combine_split.
Qed.

Lemma be_split_combine bs : be_split (length bs) (be_combine bs) = bs.
Proof.
  unfold be_combine, be_split. rewrite <- (length_rev bs).
  now rewrite split_le_combine, rev_involutive.
Qed.

(** The first six of the eight big-endian bytes of [t << 16] are the six
    big-endian bytes of [t]: the shift drops the top 16 bits of [t]. *)
Lemma be_split_shl16 t :
  firstn 6 (be_split 8 (C.shl t 16)) = be_split 6 t.
Proof.
  unfold be_split. rewrite firstn_rev, length_le_split. f_equal.
  rewrite skipn_le_split by lia. cbn [Nat.sub].
  rewrite (le_split_mod t), (le_split_mod (Z.shiftr _ _)). f_equal.
  unfold C.shl, C.to_uint64.
  rewrite Z.shiftr_div_pow2, Z.shiftl_mul_pow2 by lia.
  change (8 * Z.of_nat 2) with 16. change (Z.of_nat 6 * 8) with 48.
  change (2 ^ 64) with (2 ^ 48 * 2 ^ 16).
  rewrite Z.mul_mod_distr_r by lia.
  rewrite Z.div_mul by lia. now rewrite Z.mod_mod by lia.
Qed.

End ByteOrder.

(** * Machine arithmetic *)

Section Integers.

Lemma to_uint64_small z : 0 <= z < 2 ^ 64 -> C.to_uint64 z = z.
Proof. intros Hz. unfold C.to_uint64. now apply Z.mod_small. Qed.

Lemma to_uint64_range z : 0 <= C.to_uint64 z < 2 ^ 64.
Proof. unfold C.to_uint64. apply Z.mod_pos_bound. lia. Qed.

(** A value that fits [int64_t] survives the trip through [uint64_t]. *)
Lemma to_int64_to_uint64 z : C.is_int64 z -> C.to_int64 (C.to_uint64 z) = z.
Proof.
  unfold C.is_int64, C.to_int64, C.to_uint64. intros Hz.
  rewrite Zplus_mod_idemp_l.
  rewrite Z.mod_small by lia. lia.
Qed.

Lemma EPOCH_DIFF_USECS_value : EPOCH_DIFF_USECS = 946684800000000.
Proof. reflexivity. Qed.

(** Low bits below a shifted value do not overlap it. *)
Lemma lor_shifted_low a b k :
  0 <= k -> 0 <= b < 2 ^ k -> Z.lor (a * 2 ^ k) b = a * 2 ^ k + b.
Proof.
  intros Hk Hb. apply Z.or_to_plus.
  rewrite <- (Z.mod_small b (2 ^ k)) by exact Hb.
  rewrite <- Z.land_ones, <- Z.shiftl_mul_pow2 by exact Hk.
  prove_Zeq_bitwise.
Qed.

End Integers.

(** * What the three workers compute *)

Section Layout.

Lemma uuid_uint64_to_v7_layout h ts zero :
  uuid_uint64_to_v7 h ts zero =
  match fill_source h zero with
  | Some r => Return (be_split 6 (millis_of_timestamp ts) ++ tail10 r)
  | None => RandomUnavailable
  end.
Proof.
  unfold uuid_uint64_to_v7, memcpy. rewrite hton_object_bytes, be_split_shl16.
  remember (be_split 6 (millis_of_timestamp ts)) as l eqn:El.
  assert (Hl : length l = 6%nat) by (subst l; apply length_be_split).
  clear El. destruct h as [bo clk rnd pj sj].
  do 6 (destruct l as [| ? l]; [discriminate Hl |]).
  destruct l; [clear Hl | discriminate Hl].
  destruct zero; [reflexivity |].
  unfold fill_source, pg_strong_random. cbn [strong_random].
  destruct rnd as [r |]; reflexivity.
Qed.

Lemma uuid_generate_v7_layout h :
  uuid_generate_v7 h =
  match clock_realtime h with
  | None => ClockUnavailable
  | Some ts =>
      match strong_random h with
      | None => RandomUnavailable
      | Some r => Return (be_split 8 (v7_word ts) ++ tail8 r)
      end
  end.
Proof.
  unfold uuid_generate_v7, clock_gettime.
  destruct h as [bo clk rnd pj sj]. cbn [clock_realtime strong_random byte_order].
  destruct clk as [ts |]; [| reflexivity].
  cbn [or_ereport bind]. unfold memcpy. rewrite hton_object_bytes.
  fold (v7_word ts).
  remember (be_split 8 (v7_word ts)) as l eqn:El.
  assert (Hl : length l = 8%nat) by (subst l; apply length_be_split).
  clear El.
  do 8 (destruct l as [| ? l]; [discriminate Hl |]).
  destruct l; [clear Hl | discriminate Hl].
  unfold pg_strong_random. cbn [strong_random].
  destruct rnd as [r |]; reflexivity.
Qed.

Lemma uuid_v7_to_uint64_millis h uuid :
  (6 <= length uuid)%nat ->
  uuid_v7_to_uint64 h uuid =
  C.sub (C.mul 1000 (uuid_millis uuid)) (C.to_uint64 EPOCH_DIFF_USECS).
Proof.
  intros Hlen. unfold uuid_v7_to_uint64, uuid_millis, memcpy.
  assert (H6 : length (firstn 6 uuid) = 6%nat)
    by (rewrite length_firstn; lia).
  pose proof (length_object_bytes (byte_order h) (stack_junk h)) as Hobj.
  generalize dependent (firstn 6 uuid). intros src H6.
  generalize dependent (object_bytes (byte_order h) (stack_junk h)).
  intros obj Hobj.
  assert (Hupd : List.upds obj 0 src = src ++ skipn 6 obj).
  { unfold List.upds. rewrite Hobj, H6.
    change (firstn 0 obj) with (@nil byte).
    rewrite (firstn_all2 (n := 8 - 0)) by (rewrite H6; cbn; lia).
    reflexivity. }
  assert (H2 : length (skipn 6 obj) = 2%nat)
    by (rewrite length_skipn; lia).
  rewrite Hupd, ntoh_object_value by (rewrite length_app; lia).
  rewrite be_combine_app, H2.
  pose proof (be_combine_bound (skipn 6 obj)) as Hb.
  rewrite H2 in Hb. change (8 * Z.of_nat 2) with 16 in *.
  unfold C.shr. rewrite Z.shiftr_div_pow2 by lia.
  rewrite Z.div_add_l by lia. rewrite Z.div_small by exact Hb.
  now rewrite Z.add_0_r.
Qed.

End Layout.

(** * Runs of the code *)

Example encode_2023_11_14_zero_fill :
  uuid_timestamptz_to_v7 host_le 753315200000999 (Some true) =
  Return [Byte.x01; Byte.x8b; Byte.xcf; Byte.xe5; Byte.x68; Byte.x00;
          Byte.x70; Byte.x00; Byte.x80; Byte.x00; Byte.x00; Byte.x00;
          Byte.x00; Byte.x00; Byte.x00; Byte.x00].
Proof. reflexivity. Qed.

Example encode_null_flag_is_random_fill :
  uuid_timestamp_to_v7 host_be 753315200000999 None =
  Return [Byte.x01; Byte.x8b; Byte.xcf; Byte.xe5; Byte.x68; Byte.x00;
          Byte.x70; Byte.x01; Byte.x82; Byte.x03; Byte.x04; Byte.x05;
          Byte.x06; Byte.x07; Byte.x08; Byte.x09].
Proof. reflexivity. Qed.

Example encode_before_1970_wraps :
  uuid_timestamptz_to_v7 host_le (- 946684800000001) (Some true) =
  Return [Byte.x89; Byte.x37; Byte.x4b; Byte.xc6; Byte.xa7; Byte.xef;
          Byte.x70; Byte.x00; Byte.x80; Byte.x00; Byte.x00; Byte.x00;
          Byte.x00; Byte.x00; Byte.x00; Byte.x00].
Proof. reflexivity. Qed.

Example generate_on_host_le : uuid_generate_v7 host_le = Return generated_le.
Proof. reflexivity. Qed.

Example generate_without_clock :
  uuid_generate_v7 host_other = ClockUnavailable.
Proof. reflexivity. Qed.

Example decode_generated :
  uuid_v7_to_timestamptz host_be generated_le = Return 753315200123000.
Proof. reflexivity. Qed.

Example decode_scenario_uuid :
  uuid_v7_to_timestamp host_le scenario_uuid = Return 763655590016000.
Proof. reflexivity. Qed.

Example fraction_of_456789_ns :
  submilli_fraction 123456789 = 1871 /\ fraction_reference 123456789 = 1871.
Proof. split; reflexivity. Qed.

(** * Decoding *)

Section Decoding.

Lemma uuid_millis_bound uuid : 0 <= uuid_millis uuid < 2 ^ 48.
Proof.
  unfold uuid_millis.
  pose proof (be_combine_bound (firstn 6 uuid)) as Hb.
  pose proof (length_firstn 6 uuid) as Hl.
  assert (2 ^ (8 * Z.of_nat (length (firstn 6 uuid))) <= 2 ^ 48)
    by (apply Z.pow_le_mono_r; lia).
  lia.
Qed.

Lemma uuid_millis_app a t :
  length a = 6%nat -> uuid_millis (a ++ t) = be_combine a.
Proof.
  intros Ha. unfold uuid_millis.
  rewrite firstn_app, Ha. change (6 - 6)%nat with 0%nat.
  rewrite firstn_O, app_nil_r. f_equal. apply firstn_all2. lia.
Qed.

(** The signed value handed back to SQL. *)
Lemma decoded_value h uuid :
  length uuid = UUID_LEN ->
  C.to_int64 (uuid_v7_to_uint64 h uuid) =
  uuid_millis uuid * 1000 - EPOCH_DIFF_USECS.
Proof.
  intros Hlen. rewrite uuid_v7_to_uint64_millis by (rewrite Hlen; cbv; lia).
  pose proof (uuid_millis_bound uuid) as Hm.
  rewrite EPOCH_DIFF_USECS_value.
  unfold C.sub, C.mul. rewrite !(to_uint64_small (_ * _)) by lia.
  rewrite (to_uint64_small 946684800000000) by lia.
  rewrite to_int64_to_uint64 by (unfold C.is_int64; lia). lia.
Qed.

End Decoding.

(** * Claims about decoding *)

(** C3: on every 16-byte UUID both decoders return, without error,
    [millis * 1000 - EPOCH_DIFF_USECS], a value in the signed 64-bit range,
    where [millis] is bytes 0-5 read big-endian; two UUIDs with the same
    first six bytes decode alike, on any host. *)
Theorem decode_is_millis_times_1000_minus_epoch :
  forall (h : host) (uuid : list byte),
    length uuid = UUID_LEN ->
    uuid_v7_to_timestamptz h uuid =
      Return (uuid_millis uuid * 1000 - EPOCH_DIFF_USECS)
    /\ uuid_v7_to_timestamp h uuid =
      Return (uuid_millis uuid * 1000 - EPOCH_DIFF_USECS)
    /\ C.is_int64 (uuid_millis uuid * 1000 - EPOCH_DIFF_USECS)
    /\ (forall (h' : host) (uuid' : list byte),
          length uuid' = UUID_LEN ->
          firstn 6 uuid' = firstn 6 uuid ->
          uuid_v7_to_timestamptz h' uuid' = uuid_v7_to_timestamptz h uuid).
Proof.
  intros h uuid Hlen.
  unfold uuid_v7_to_timestamptz, uuid_v7_to_timestamp.
  rewrite decoded_value by exact Hlen.
  repeat split.
  - pose proof (uuid_millis_bound uuid). rewrite EPOCH_DIFF_USECS_value. lia.
  - pose proof (uuid_millis_bound uuid). rewrite EPOCH_DIFF_USECS_value. lia.
  - intros h' uuid' Hlen' Hsame. rewrite decoded_value by exact Hlen'.
    unfold uuid_millis. now rewrite Hsame.
Qed.

Lemma decode_is_millis_times_1000_minus_epoch_witness :
  length scenario_uuid = UUID_LEN
  /\ uuid_v7_to_timestamptz host_le scenario_uuid =
       Return (uuid_millis scenario_uuid * 1000 - EPOCH_DIFF_USECS).
Proof.
  split; [reflexivity |].
  destruct (decode_is_millis_times_1000_minus_epoch host_le scenario_uuid)
    as [Htz _]; [reflexivity | exact Htz].
Defined.

(** C7, as the code has it: a UUID whose first six bytes are
    01 8E 38 3B 3C 80 decodes to 763655590016000, which is
    1710340390016000 microseconds since the Unix epoch, whatever its other
    ten bytes and whatever the host. *)
Theorem scenario_prefix_decodes_to_1710340390016000 :
  forall (h : host) (uuid : list byte),
    length uuid = UUID_LEN ->
    firstn 6 uuid = scenario_prefix ->
    uuid_v7_to_timestamptz h uuid = Return 763655590016000
    /\ uuid_v7_to_timestamp h uuid = Return 763655590016000
    /\ unix_usecs 763655590016000 = 1710340390016000.
Proof.
  intros h uuid Hlen Hpre.
  destruct (decode_is_millis_times_1000_minus_epoch h uuid Hlen)
    as (Htz & Hts & _).
  rewrite Htz, Hts. unfold uuid_millis. rewrite Hpre.
  repeat split.
Qed.

Lemma scenario_prefix_decodes_to_1710340390016000_witness :
  length scenario_uuid = UUID_LEN
  /\ firstn 6 scenario_uuid = scenario_prefix
  /\ uuid_v7_to_timestamptz host_be scenario_uuid = Return 763655590016000.
Proof.
  split; [reflexivity |]. split; [reflexivity |].
  destruct (scenario_prefix_decodes_to_1710340390016000 host_be scenario_uuid)
    as [Htz _]; [reflexivity | reflexivity | exact Htz].
Defined.

(** C7, as stated, fails: the scenario UUID starts with the six bytes of
    the claim and does not decode to 1700000000000000 microseconds since
    the Unix epoch, nor to that number as a raw value. *)
Lemma scenario_prefix_is_not_1700000000000000 :
  length scenario_uuid = UUID_LEN
  /\ firstn 6 scenario_uuid = scenario_prefix
  /\ uuid_v7_to_timestamptz host_le scenario_uuid = Return 763655590016000
  /\ unix_usecs 763655590016000 <> 1700000000000000
  /\ 763655590016000 <> 1700000000000000
  /\ ~ (forall (h : host) (uuid : list byte),
          length uuid = UUID_LEN ->
          firstn 6 uuid = scenario_prefix ->
          exists t, uuid_v7_to_timestamptz h uuid = Return t
                    /\ unix_usecs t = 1700000000000000).
Proof.
  split; [reflexivity |]. split; [reflexivity |]. split; [reflexivity |].
  split; [discriminate |]. split; [discriminate |].
  intros Hclaim.
  destruct (Hclaim host_le scenario_uuid eq_refl eq_refl) as (t & Ht & Hu).
  assert (Hd : uuid_v7_to_timestamptz host_le scenario_uuid
               = Return 763655590016000) by reflexivity.
  rewrite Hd in Ht. injection Ht as <-. discriminate Hu.
Qed.

(** * Encoding *)

Section Encoding.

Lemma millis_of_timestamp_to_uint64 ts :
  millis_of_timestamp (C.to_uint64 ts) =
  ((ts + EPOCH_DIFF_USECS) mod 2 ^ 64) / 1000.
Proof.
  unfold millis_of_timestamp, C.div, C.add, C.to_uint64.
  now rewrite <- Zplus_mod.
Qed.

Lemma be_split_6_mod v : be_split 6 (v mod 2 ^ 48) = be_split 6 v.
Proof.
  unfold be_split. rewrite (le_split_mod v 6).
  change (Z.of_nat 6 * 8) with 48. reflexivity.
Qed.

Lemma length_tail10 r : length (tail10 r) = 10%nat.
Proof. reflexivity. Qed.

Lemma length_tail8 r : length (tail8 r) = 8%nat.
Proof. reflexivity. Qed.

Lemma tail10_zero : tail10 (fun _ => Byte.x00) = zero_fill_tail.
Proof. reflexivity. Qed.

(** An encoded UUID has sixteen bytes, the first six being the big-endian
    bytes of the millisecond value. *)
Lemma encoded_shape m r :
  length (be_split 6 m ++ tail10 r) = UUID_LEN
  /\ firstn 6 (be_split 6 m ++ tail10 r) = be_split 6 m
  /\ skipn 6 (be_split 6 m ++ tail10 r) = tail10 r.
Proof.
  (* [be_split 6 m] unfolds to six explicit bytes *)
  split; [reflexivity |]. split; reflexivity.
Qed.

(** Outcome of the worker, case by case. *)
Lemma uuid_uint64_to_v7_zero h ts :
  uuid_uint64_to_v7 h ts true =
  Return (be_split 6 (millis_of_timestamp ts) ++ zero_fill_tail).
Proof. now rewrite uuid_uint64_to_v7_layout. Qed.

Lemma uuid_uint64_to_v7_random h ts r :
  strong_random h = Some r ->
  uuid_uint64_to_v7 h ts false =
  Return (be_split 6 (millis_of_timestamp ts) ++ tail10 r).
Proof.
  intros Hr. rewrite uuid_uint64_to_v7_layout. cbn [fill_source]. now rewrite Hr.
Qed.

Lemma uuid_uint64_to_v7_fails h ts :
  strong_random h = None ->
  uuid_uint64_to_v7 h ts false = RandomUnavailable.
Proof.
  intros Hr. rewrite uuid_uint64_to_v7_layout. cbn [fill_source]. now rewrite Hr.
Qed.

Lemma uuid_uint64_to_v7_cases h ts zero :
  (zero = false /\ strong_random h = None
   /\ uuid_uint64_to_v7 h ts zero = RandomUnavailable)
  \/ ((zero = true \/ strong_random h <> None)
      /\ exists r, uuid_uint64_to_v7 h ts zero =
                   Return (be_split 6 (millis_of_timestamp ts) ++ tail10 r)).
Proof.
  destruct zero.
  - right. split; [now left |]. exists (fun _ => Byte.x00).
    apply uuid_uint64_to_v7_zero.
  - destruct (strong_random h) as [r |] eqn:Hr.
    + right. split; [now right |]. exists r.
      now apply uuid_uint64_to_v7_random.
    + left. repeat split. now apply uuid_uint64_to_v7_fails.
Qed.

End Encoding.

(** * Claims about encoding from a timestamp *)

(** C1: for a signed 64-bit [ts] whose millisecond value since the Unix
    epoch, [floor((ts + EPOCH_DIFF_USECS) / 1000)], fits the 48-bit field,
    encoding with zero fill succeeds and decoding the result gives
    [1000 * floor((ts + EPOCH_DIFF_USECS) / 1000) - EPOCH_DIFF_USECS]. *)
Theorem roundtrip_millisecond_floor :
  forall (h h' : host) (ts : Z),
    C.is_int64 ts ->
    0 <= (ts + EPOCH_DIFF_USECS) / 1000 < 2 ^ 48 ->
    exists uuid : list byte,
      uuid_timestamptz_to_v7 h ts (Some true) = Return uuid
      /\ uuid_timestamp_to_v7 h ts (Some true) = Return uuid
      /\ uuid_v7_to_timestamptz h' uuid =
           Return (1000 * ((ts + EPOCH_DIFF_USECS) / 1000) - EPOCH_DIFF_USECS)
      /\ uuid_v7_to_timestamp h' uuid =
           Return (1000 * ((ts + EPOCH_DIFF_USECS) / 1000) - EPOCH_DIFF_USECS).
Proof.
  intros h h' ts _ Hfit.
  unfold uuid_timestamptz_to_v7, uuid_timestamp_to_v7.
  rewrite uuid_uint64_to_v7_zero, <- tail10_zero.
  eexists. split; [reflexivity |]. split; [reflexivity |].
  destruct (encoded_shape (millis_of_timestamp (C.to_uint64 ts))
                          (fun _ => Byte.x00)) as (Hlen & _ & _).
  unfold uuid_v7_to_timestamptz, uuid_v7_to_timestamp.
  rewrite decoded_value by exact Hlen.
  rewrite uuid_millis_app by apply length_be_split.
  rewrite be_combine_split, millis_of_timestamp_to_uint64.
  change (Z.of_nat 6 * 8) with 48.
  assert (Hsum : 0 <= ts + EPOCH_DIFF_USECS < 2 ^ 64).
  { generalize dependent (ts + EPOCH_DIFF_USECS). clear. intros x Hfit.
    Z.div_mod_to_equations. lia. }
  rewrite (Z.mod_small (ts + EPOCH_DIFF_USECS)) by exact Hsum.
  rewrite (Z.mod_small _ (2 ^ 48)) by exact Hfit.
  split; f_equal; lia.
Qed.

Lemma roundtrip_millisecond_floor_witness :
  C.is_int64 753315200000999
  /\ 0 <= (753315200000999 + EPOCH_DIFF_USECS) / 1000 < 2 ^ 48
  /\ exists uuid : list byte,
       uuid_timestamptz_to_v7 host_le 753315200000999 (Some true) = Return uuid
       /\ uuid_timestamp_to_v7 host_le 753315200000999 (Some true) = Return uuid
       /\ uuid_v7_to_timestamptz host_be uuid = Return 753315200000000
       /\ uuid_v7_to_timestamp host_be uuid = Return 753315200000000.
Proof.
  split; [unfold C.is_int64; lia |].
  split; [vm_compute; split; [discriminate | reflexivity] |].
  apply (roundtrip_millisecond_floor host_le host_be 753315200000999).
  - unfold C.is_int64. lia.
  - vm_compute. split; [discriminate | reflexivity].
Defined.

(** C5: with zero fill the worker is a function of [ts] alone: on any two
    hosts it returns the same sixteen bytes, and bytes 6-15 of them are
    70 00 80 00 00 00 00 00 00 00. *)
Theorem zero_fill_is_deterministic :
  forall (h h' : host) (ts : Z),
    exists uuid : list byte,
      uuid_uint64_to_v7 h ts true = Return uuid
      /\ uuid_uint64_to_v7 h' ts true = Return uuid
      /\ length uuid = UUID_LEN
      /\ get uuid 6 = Byte.x70
      /\ get uuid 7 = Byte.x00
      /\ get uuid 8 = Byte.x80
      /\ skipn 9 uuid = repeat Byte.x00 7
      /\ skipn 6 uuid = zero_fill_tail.
Proof.
  intros h h' ts. rewrite !uuid_uint64_to_v7_zero.
  eexists. split; [reflexivity |]. split; [reflexivity |].
  repeat split.
Qed.

(** C6: the worker fails exactly when [zero] is false and the random
    source fails, and the failure is [RandomUnavailable]; in every other
    case, so always with zero fill, it returns a sixteen-byte UUID.  An
    outcome is an error or a UUID, never both. *)
Theorem random_unavailable_iff :
  forall (h : host) (ts : Z) (zero : bool),
    (uuid_uint64_to_v7 h ts zero = RandomUnavailable
     <-> zero = false /\ strong_random h = None)
    /\ (forall code msg, uuid_uint64_to_v7 h ts zero = Ereport code msg ->
                         zero = false /\ strong_random h = None
                         /\ uuid_uint64_to_v7 h ts zero = RandomUnavailable)
    /\ ((zero = true \/ strong_random h <> None) ->
        exists uuid, uuid_uint64_to_v7 h ts zero = Return uuid
                     /\ length uuid = UUID_LEN)
    /\ (exists uuid, uuid_uint64_to_v7 h ts true = Return uuid).
Proof.
  intros h ts zero.
  assert (Hcases :
    (zero = false /\ strong_random h = None
     /\ uuid_uint64_to_v7 h ts zero = RandomUnavailable)
    \/ ((zero = true \/ strong_random h <> None)
        /\ exists uuid, uuid_uint64_to_v7 h ts zero = Return uuid
                        /\ length uuid = UUID_LEN)).
  { destruct (uuid_uint64_to_v7_cases h ts zero) as [Hf | (Hok & r & Hr)];
      [now left | right].
    split; [exact Hok |]. eexists. split; [exact Hr |].
    apply encoded_shape. }
  split; [split |]; [| | split; [| split]].
  - intros He. destruct Hcases as [(Hz & Hr & _) | (_ & uuid & Hu & _)].
    + now split.
    + rewrite Hu in He. discriminate He.
  - intros [Hz Hr]. destruct Hcases as [(_ & _ & He) | ([Ht | Hs] & _)].
    + exact He.
    + congruence.
    + contradiction.
  - intros code msg He.
    destruct Hcases as [Hfail | (_ & uuid & Hu & _)]; [exact Hfail |].
    rewrite Hu in He. discriminate He.
  - intros Hok. destruct Hcases as [(Hz & Hr & _) | (_ & Hex)]; [| exact Hex].
    destruct Hok as [Ht | Hs]; [congruence | contradiction].
  - rewrite uuid_uint64_to_v7_zero. eexists. reflexivity.
Qed.

(** C10: for a signed 64-bit [ts] no range is checked: the only error an
    entry point can end with is [RandomUnavailable], and whenever it
    returns, bytes 0-5 hold
    [(((ts + EPOCH_DIFF_USECS) mod 2^64) / 1000) mod 2^48], big-endian. *)
Theorem encode_wraps_without_range_error :
  forall (h : host) (ts : Z) (arg1 : option bool),
    C.is_int64 ts ->
    (forall code msg,
        uuid_timestamptz_to_v7 h ts arg1 = Ereport code msg ->
        zero_arg arg1 = false /\ strong_random h = None
        /\ uuid_timestamptz_to_v7 h ts arg1 = RandomUnavailable)
    /\ ((zero_arg arg1 = true \/ strong_random h <> None) ->
        exists uuid : list byte,
          uuid_timestamptz_to_v7 h ts arg1 = Return uuid
          /\ length uuid = UUID_LEN
          /\ firstn 6 uuid = be_split 6 (wrapped_millis ts)
          /\ uuid_millis uuid = wrapped_millis ts).
Proof.
  intros h ts arg1 _. unfold uuid_timestamptz_to_v7. fold (zero_arg arg1).
  destruct (uuid_uint64_to_v7_cases h (C.to_uint64 ts) (zero_arg arg1))
    as [(Hz & Hs & He) | (Hok & r & Hr)].
  - split.
    + intros code msg _. now repeat split.
    + intros [Ht | Hn]; [congruence | contradiction].
  - split.
    + intros code msg He. rewrite Hr in He. discriminate He.
    + intros _. eexists. split; [exact Hr |].
      destruct (encoded_shape (millis_of_timestamp (C.to_uint64 ts)) r)
        as (Hlen & Hfirst & _).
      split; [exact Hlen |].
      rewrite millis_of_timestamp_to_uint64 in *.
      unfold wrapped_millis. split.
      * rewrite Hfirst. symmetry. apply be_split_6_mod.
      * rewrite uuid_millis_app by apply length_be_split.
        apply be_combine_split.
Qed.

Lemma encode_wraps_without_range_error_witness :
  C.is_int64 (- 946684800000001)
  /\ (zero_arg (Some true) = true \/ strong_random host_le <> None)
  /\ exists uuid : list byte,
       uuid_timestamptz_to_v7 host_le (- 946684800000001) (Some true)
         = Return uuid
       /\ length uuid = UUID_LEN
       /\ firstn 6 uuid = be_split 6 (wrapped_millis (- 946684800000001))
       /\ uuid_millis uuid = wrapped_millis (- 946684800000001).
Proof.
  split; [unfold C.is_int64; lia |].
  split; [left; reflexivity |].
  destruct (encode_wraps_without_range_error
              host_le (- 946684800000001) (Some true)) as [_ Hret].
  - unfold C.is_int64. lia.
  - apply Hret. left. reflexivity.
Defined.

(** C9: the timezone-aware and the timezone-naive entry points are the
    same functions.  Both decoders return the signed reading of
    [uuid_v7_to_uint64] and agree on every 16-byte UUID, on any two hosts;
    both encoders call [uuid_uint64_to_v7] with the same arguments and,
    given the same random source, produce the same outcome. *)
Theorem entry_points_agree :
  forall (h h' : host) (uuid : list byte) (ts : Z) (arg1 : option bool),
    length uuid = UUID_LEN ->
    strong_random h = strong_random h' ->
    uuid_v7_to_timestamptz h uuid = uuid_v7_to_timestamp h' uuid
    /\ uuid_timestamptz_to_v7 h ts arg1 = uuid_timestamp_to_v7 h' ts arg1
    /\ uuid_v7_to_timestamptz h uuid =
         Return (C.to_int64 (uuid_v7_to_uint64 h uuid))
    /\ uuid_v7_to_timestamp h uuid =
         Return (C.to_int64 (uuid_v7_to_uint64 h uuid))
    /\ uuid_timestamptz_to_v7 h ts arg1 =
         uuid_uint64_to_v7 h (C.to_uint64 ts) (zero_arg arg1)
    /\ uuid_timestamp_to_v7 h ts arg1 =
         uuid_uint64_to_v7 h (C.to_uint64 ts) (zero_arg arg1).
Proof.
  intros h h' uuid ts arg1 Hlen Hrand. split; [| split].
  - unfold uuid_v7_to_timestamptz, uuid_v7_to_timestamp.
    now rewrite !decoded_value by exact Hlen.
  - unfold uuid_timestamptz_to_v7, uuid_timestamp_to_v7.
    rewrite !uuid_uint64_to_v7_layout. unfold fill_source.
    now rewrite Hrand.
  - repeat split.
Qed.

Lemma entry_points_agree_witness :
  length scenario_uuid = UUID_LEN
  /\ strong_random host_le = strong_random host_other
  /\ uuid_v7_to_timestamptz host_le scenario_uuid =
       uuid_v7_to_timestamp host_other scenario_uuid
  /\ uuid_timestamptz_to_v7 host_le 753315200000999 None =
       uuid_timestamp_to_v7 host_other 753315200000999 None.
Proof.
  split; [reflexivity |]. split; [reflexivity |].
  destruct (entry_points_agree host_le host_other scenario_uuid
              753315200000999 None) as (Hdec & Henc & _).
  - reflexivity.
  - reflexivity.
  - split; [exact Hdec | exact Henc].
Defined.

(** * The first 64 bits of a generated UUID *)

Section Generation.

Lemma submilli_fraction_range nsec : 0 <= submilli_fraction nsec < 4096.
Proof.
  unfold submilli_fraction. change 0x0fff with (Z.ones 12).
  rewrite Z.land_ones by lia. apply Z.mod_pos_bound. lia.
Qed.

(** The three fields of the word do not overlap: the bitwise ors add. *)
Lemma v7_word_sum ts :
  v7_word ts =
  (millis_of_timespec ts mod 2 ^ 48) * 2 ^ 16 + 0x7000
  + submilli_fraction (tv_nsec ts).
Proof.
  unfold v7_word. pose proof (submilli_fraction_range (tv_nsec ts)) as Hf.
  assert (Hshl : C.shl (millis_of_timespec ts) 16
                 = (millis_of_timespec ts mod 2 ^ 48) * 2 ^ 16).
  { unfold C.shl, C.to_uint64. rewrite Z.shiftl_mul_pow2 by lia.
    change (2 ^ 64) with (2 ^ 48 * 2 ^ 16).
    now rewrite Z.mul_mod_distr_r by lia. }
  rewrite Hshl. generalize (millis_of_timespec ts mod 2 ^ 48). intros m.
  rewrite lor_shifted_low by lia.
  replace (m * 2 ^ 16 + 0x7000) with ((m * 16 + 7) * 2 ^ 12) by lia.
  now rewrite lor_shifted_low by lia.
Qed.

Lemma v7_word_millis ts :
  Z.shiftr (v7_word ts) 16 = millis_of_timespec ts mod 2 ^ 48.
Proof.
  rewrite v7_word_sum, Z.shiftr_div_pow2 by lia.
  pose proof (submilli_fraction_range (tv_nsec ts)) as Hf.
  rewrite <- Z.add_assoc, Z.div_add_l by lia.
  rewrite Z.div_small by lia. lia.
Qed.

(** The byte that lands at index 6 carries the version in its top nibble. *)
Lemma v7_word_version ts :
  Z.shiftr (byte.unsigned (byte.of_Z (Z.shiftr (v7_word ts) 8))) 4 = 7.
Proof.
  rewrite byte.unsigned_of_Z. unfold byte.wrap.
  rewrite v7_word_sum, !Z.shiftr_div_pow2 by lia.
  pose proof (submilli_fraction_range (tv_nsec ts)) as Hf.
  generalize dependent (submilli_fraction (tv_nsec ts)).
  generalize (millis_of_timespec ts mod 2 ^ 48). intros m f Hf.
  Z.div_mod_to_equations. lia.
Qed.

Lemma version_bits_top b : Z.shiftr (byte.unsigned (version_bits b)) 4 = 7.
Proof. destruct b; reflexivity. Qed.

Lemma variant_bits_top b : Z.shiftr (byte.unsigned (variant_bits b)) 6 = 2.
Proof. destruct b; reflexivity. Qed.

Lemma be_split_8_firstn w :
  firstn 6 (be_split 8 w) = be_split 6 (Z.shiftr w 16).
Proof.
  unfold be_split. rewrite firstn_rev, length_le_split.
  rewrite skipn_le_split by lia. reflexivity.
Qed.

(** On a clock reading as [clock_gettime] delivers it, with a millisecond
    count that fits 48 bits, line 33 computes that count. *)
Lemma millis_of_timespec_exact ts :
  valid_timespec ts -> 0 <= unix_millis ts < 2 ^ 48 ->
  millis_of_timespec ts mod 2 ^ 48 = unix_millis ts.
Proof.
  unfold valid_timespec, unix_millis, millis_of_timespec.
  unfold C.add, C.mul, C.div, C.to_uint64.
  destruct ts as [sec nsec]. cbn [tv_sec tv_nsec]. intros Hn Hm.
  assert (Hq : 0 <= nsec / 1000000 < 1000)
    by (split; [apply Z.div_pos; lia | apply Z.div_lt_upper_bound; lia]).
  assert (Hs : 0 <= sec < 2 ^ 48) by lia.
  rewrite (Z.mod_small sec), (Z.mod_small nsec) by lia.
  rewrite (Z.mod_small (sec * 1000)) by lia.
  rewrite (Z.mod_small (_ + _) (2 ^ 64)) by lia.
  apply Z.mod_small. lia.
Qed.

(** Big-endian bytes order as the numbers they spell. *)
Lemma bytes_compare_be a :
  forall b x y,
    length a = length b ->
    be_combine a < be_combine b ->
    bytes_compare (a ++ x) (b ++ y) = Lt.
Proof.
  induction a as [| p a IH]; intros [| q b] x y Hlen Hlt;
    cbn [length] in Hlen; try discriminate Hlen.
  - exfalso. revert Hlt. apply Z.lt_irrefl.
  - injection Hlen as Hlen. rewrite !be_combine_cons, Hlen in Hlt.
    pose proof (be_combine_bound a) as Ha.
    pose proof (be_combine_bound b) as Hb. rewrite Hlen in Ha.
    cbn [app bytes_compare]. unfold byte.compare.
    destruct (Z.compare_spec (byte.unsigned p) (byte.unsigned q))
      as [Heq | Hpq | Hqp].
    + apply IH; [exact Hlen |]. rewrite Heq in Hlt. lia.
    + reflexivity.
    + exfalso. generalize dependent (2 ^ (8 * Z.of_nat (length b))).
      intros k Hlt Ha Hb. nia.
Qed.

End Generation.

(** * Claims about the version and variant bits, the fraction, the order *)

(** C2: a UUID returned by [uuid_generate_v7], or by [uuid_uint64_to_v7]
    with either value of [zero], has 0111 as the top nibble of byte 6 and
    10 as the top two bits of byte 8. *)
Theorem version_and_variant_bits :
  forall (h : host) (uuid : list byte),
    (uuid_generate_v7 h = Return uuid
     \/ exists ts zero, uuid_uint64_to_v7 h ts zero = Return uuid) ->
    uuid_version uuid = 7 /\ uuid_variant uuid = 2.
Proof.
  intros h uuid [Hgen | (ts & zero & Henc)].
  - rewrite uuid_generate_v7_layout in Hgen.
    destruct (clock_realtime h) as [ts |]; [| discriminate Hgen].
    destruct (strong_random h) as [r |]; [| discriminate Hgen].
    injection Hgen as <-. unfold uuid_version, uuid_variant. split.
    + change (get (be_split 8 (v7_word ts) ++ tail8 r) 6)
        with (byte.of_Z (Z.shiftr (v7_word ts) 8)).
      apply v7_word_version.
    + change (get (be_split 8 (v7_word ts) ++ tail8 r) 8)
        with (variant_bits (r 0%nat)).
      apply variant_bits_top.
  - destruct (uuid_uint64_to_v7_cases h ts zero)
      as [(_ & _ & He) | (_ & r & Hr)]; rewrite Henc in *.
    + discriminate He.
    + injection Hr as ->. unfold uuid_version, uuid_variant. split.
      * change (get (be_split 6 (millis_of_timestamp ts) ++ tail10 r) 6)
          with (version_bits (r 0%nat)).
        apply version_bits_top.
      * change (get (be_split 6 (millis_of_timestamp ts) ++ tail10 r) 8)
          with (variant_bits (r 2%nat)).
        apply variant_bits_top.
Qed.

Lemma version_and_variant_bits_witness :
  (uuid_generate_v7 host_le = Return generated_le
   \/ exists ts zero, uuid_uint64_to_v7 host_le ts zero = Return generated_le)
  /\ uuid_version generated_le = 7 /\ uuid_variant generated_le = 2.
Proof.
  split; [left; reflexivity |].
  apply (version_and_variant_bits host_le generated_le).
  left. reflexivity.
Defined.

(** C4: for [0 <= n <= 999999999] the shifted computation of
    [uuid_generate_v7] equals the reference formula
    [((n % 1000000) * 4096) / 1000000] with truncating division, and lies
    in 0..4095. *)
Theorem fraction_shortcut_is_exact :
  forall n : Z,
    0 <= n <= 999999999 ->
    submilli_fraction n = fraction_reference n
    /\ 0 <= submilli_fraction n <= 4095.
Proof.
  intros n Hn. split.
  - unfold submilli_fraction, fraction_reference, C.div, C.shl, C.to_uint64.
    change 0x0fff with (Z.ones 12). rewrite Z.land_ones by lia.
    rewrite Z.shiftl_mul_pow2 by lia.
    rewrite (Z.mod_small n), (Z.mod_small (n * 2 ^ 12)) by lia.
    rewrite Z.rem_mod_nonneg by lia.
    pose proof (Z.mod_pos_bound n 1000000) as Hr.
    rewrite Z.quot_div_nonneg by lia.
    rewrite (Z.div_mod n 1000000) at 1 by lia.
    replace ((1000000 * (n / 1000000) + n mod 1000000) * 2 ^ 12)
      with (n / 1000000 * 4096 * 1000000 + n mod 1000000 * 4096) by lia.
    rewrite Z.div_add_l by lia.
    change (2 ^ 12) with 4096.
    rewrite Z.add_comm, Z.mod_add by lia.
    apply Z.mod_small. split.
    + apply Z.div_pos; lia.
    + apply Z.div_lt_upper_bound; lia.
  - pose proof (submilli_fraction_range n). lia.
Qed.

Lemma fraction_shortcut_is_exact_witness :
  0 <= 999999999 <= 999999999
  /\ submilli_fraction 999999999 = fraction_reference 999999999
  /\ 0 <= submilli_fraction 999999999 <= 4095.
Proof.
  split; [lia |].
  apply (fraction_shortcut_is_exact 999999999). lia.
Defined.

(** C8: take two calls of [uuid_generate_v7] whose clock readings [t1] and
    [t2] are as [clock_gettime] delivers them, with millisecond counts
    [0 <= unix_millis t1 < unix_millis t2 < 2^48].  Whatever bytes the
    random source supplies to either call, both return and the first UUID
    is below the second in byte-wise lexicographic order. *)
Theorem generate_is_monotonic :
  forall (h1 h2 : host) (t1 t2 : timespec) (r1 r2 : nat -> byte),
    clock_realtime h1 = Some t1 ->
    clock_realtime h2 = Some t2 ->
    strong_random h1 = Some r1 ->
    strong_random h2 = Some r2 ->
    valid_timespec t1 ->
    valid_timespec t2 ->
    0 <= unix_millis t1 ->
    unix_millis t1 < unix_millis t2 ->
    unix_millis t2 < 2 ^ 48 ->
    exists u1 u2 : list byte,
      uuid_generate_v7 h1 = Return u1
      /\ uuid_generate_v7 h2 = Return u2
      /\ uuid_millis u1 = unix_millis t1
      /\ uuid_millis u2 = unix_millis t2
      /\ bytes_compare u1 u2 = Lt.
Proof.
  intros h1 h2 t1 t2 r1 r2 Hc1 Hc2 Hr1 Hr2 Hv1 Hv2 H0 Hlt H48.
  rewrite !uuid_generate_v7_layout, Hc1, Hc2, Hr1, Hr2.
  eexists. eexists. split; [reflexivity |]. split; [reflexivity |].
  assert (Hsplit : forall t r,
    be_split 8 (v7_word t) ++ tail8 r =
    be_split 6 (millis_of_timespec t mod 2 ^ 48)
      ++ (skipn 6 (be_split 8 (v7_word t)) ++ tail8 r)).
  { intros t r. rewrite <- v7_word_millis, <- be_split_8_firstn.
    now rewrite app_assoc, firstn_skipn. }
  rewrite !Hsplit.
  rewrite (millis_of_timespec_exact t1), (millis_of_timespec_exact t2)
    by (try assumption; lia).
  assert (Hval : forall m, 0 <= m < 2 ^ 48 -> be_combine (be_split 6 m) = m).
  { intros m Hm. rewrite be_combine_split. now apply Z.mod_small. }
  rewrite !uuid_millis_app by apply length_be_split.
  rewrite !Hval by lia.
  split; [reflexivity |]. split; [reflexivity |].
  apply bytes_compare_be.
  - now rewrite !length_be_split.
  - rewrite !Hval by lia. exact Hlt.
Qed.

Lemma generate_is_monotonic_witness :
  exists u1 u2 : list byte,
    uuid_generate_v7 host_le = Return u1
    /\ uuid_generate_v7 host_be = Return u2
    /\ uuid_millis u1 = 1700000000123
    /\ uuid_millis u2 = 1700000000124
    /\ bytes_compare u1 u2 = Lt.
Proof.
  apply (generate_is_monotonic host_le host_be
           {| tv_sec := 1700000000; tv_nsec := 123456789 |}
           {| tv_sec := 1700000000; tv_nsec := 124000000 |}
           (fun i => byte.of_Z (255 - Z.of_nat i))
           (fun i => byte.of_Z (Z.of_nat i)));
    try reflexivity;
    try (unfold valid_timespec; cbn [tv_nsec]; lia);
    vm_compute; try reflexivity; discriminate.
Defined.

(** * Further properties of [uuid_generate_v7] *)

Section GenerationMore.

Lemma Return_inj {A : Type} (a b : A) : Return a = Return b -> a = b.
Proof. intros H. now injection H. Qed.

Lemma submilli_fraction_arith n :
  0 <= n < 1000000000 ->
  submilli_fraction n = (n mod 1000000 * 4096) / 1000000.
Proof.
  intros Hn.
  unfold submilli_fraction, C.div, C.shl, C.to_uint64.
  change 0x0fff with (Z.ones 12). rewrite Z.land_ones by lia.
  rewrite Z.shiftl_mul_pow2 by lia.
  rewrite (Z.mod_small n), (Z.mod_small (n * 2 ^ 12)) by lia.
  pose proof (Z.mod_pos_bound n 1000000) as Hr.
  rewrite (Z.div_mod n 1000000) at 1 by lia.
  replace ((1000000 * (n / 1000000) + n mod 1000000) * 2 ^ 12)
    with (n / 1000000 * 4096 * 1000000 + n mod 1000000 * 4096) by lia.
  rewrite Z.div_add_l by lia. change (2 ^ 12) with 4096.
  rewrite Z.add_comm, Z.mod_add by lia.
  apply Z.mod_small. split.
  - apply Z.div_pos; lia.
  - apply Z.div_lt_upper_bound; lia.
Qed.

Lemma variant_bits_low b :
  Z.land (byte.unsigned (variant_bits b)) 0x3f = Z.land (byte.unsigned b) 0x3f.
Proof. destruct b; reflexivity. Qed.

Lemma version_bits_low b :
  Z.land (byte.unsigned (version_bits b)) 0x0f = Z.land (byte.unsigned b) 0x0f.
Proof. destruct b; reflexivity. Qed.

(** Bytes 6 and 7 of the word spell [0x7000 | fraction]. *)
Lemma v7_word_fraction ts :
  Z.land (byte.unsigned (byte.of_Z (Z.shiftr (v7_word ts) 8))) 0x0f * 256
  + byte.unsigned (byte.of_Z (v7_word ts))
  = submilli_fraction (tv_nsec ts).
Proof.
  rewrite !byte.unsigned_of_Z. unfold byte.wrap.
  change 0x0f with (Z.ones 4). rewrite Z.land_ones by lia.
  rewrite v7_word_sum, !Z.shiftr_div_pow2 by lia.
  pose proof (submilli_fraction_range (tv_nsec ts)) as Hf.
  generalize dependent (submilli_fraction (tv_nsec ts)).
  generalize (millis_of_timespec ts mod 2 ^ 48). intros m f Hf.
  Z.div_mod_to_equations. lia.
Qed.

Lemma generated_millis t r :
  uuid_millis (be_split 8 (v7_word t) ++ tail8 r)
  = millis_of_timespec t mod 2 ^ 48.
Proof.
  replace (be_split 8 (v7_word t) ++ tail8 r)
    with (be_split 6 (millis_of_timespec t mod 2 ^ 48)
          ++ (skipn 6 (be_split 8 (v7_word t)) ++ tail8 r)).
  - rewrite uuid_millis_app by apply length_be_split.
    rewrite be_combine_split. change (Z.of_nat 6 * 8) with 48.
    now rewrite Z.mod_mod by lia.
  - rewrite <- v7_word_millis, <- be_split_8_firstn.
    now rewrite app_assoc, firstn_skipn.
Qed.

End GenerationMore.

(** X1: [uuid_generate_v7] reads the clock first.  It ends with
    [ClockUnavailable] exactly when the clock fails, whatever the random
    source would do; with [RandomUnavailable] exactly when the clock works
    and the random source fails; and returns sixteen bytes exactly when
    both work. *)
Theorem generate_outcomes :
  forall h : host,
    (uuid_generate_v7 h = ClockUnavailable <-> clock_realtime h = None)
    /\ (uuid_generate_v7 h = RandomUnavailable
        <-> clock_realtime h <> None /\ strong_random h = None)
    /\ ((exists uuid, uuid_generate_v7 h = Return uuid
                      /\ length uuid = UUID_LEN)
        <-> clock_realtime h <> None /\ strong_random h <> None).
Proof.
  intros h. rewrite uuid_generate_v7_layout.
  destruct (clock_realtime h) as [t |]; [destruct (strong_random h) as [r |] |].
  - split; [| split]; split.
    + discriminate.
    + discriminate.
    + discriminate.
    + intros [_ H]. discriminate H.
    + intros _. split; discriminate.
    + intros _. eexists. split; reflexivity.
  - split; [| split]; split.
    + discriminate.
    + discriminate.
    + intros _. split; [discriminate | reflexivity].
    + reflexivity.
    + intros (u & Hu & _). discriminate Hu.
    + intros [_ H]. now contradiction H.
  - split; [| split]; split.
    + reflexivity.
    + reflexivity.
    + discriminate.
    + intros [H _]. now contradiction H.
    + intros (u & Hu & _). discriminate Hu.
    + intros [H _]. now contradiction H.
Qed.

(** X2: a UUID generated at a clock reading [t] (nanoseconds below one
    second, millisecond count within 48 bits) decodes, on any host, to the
    PostgreSQL timestamp of [t] cut to whole milliseconds:
    [unix_millis t * 1000 - EPOCH_DIFF_USECS]. *)
Theorem generate_then_decode :
  forall (h h' : host) (t : timespec) (r : nat -> byte),
    clock_realtime h = Some t ->
    strong_random h = Some r ->
    valid_timespec t ->
    0 <= unix_millis t < 2 ^ 48 ->
    exists uuid : list byte,
      uuid_generate_v7 h = Return uuid
      /\ uuid_v7_to_timestamptz h' uuid =
           Return (unix_millis t * 1000 - EPOCH_DIFF_USECS)
      /\ uuid_v7_to_timestamp h' uuid =
           Return (unix_millis t * 1000 - EPOCH_DIFF_USECS).
Proof.
  intros h h' t r Hc Hr Hv Hm.
  rewrite uuid_generate_v7_layout, Hc, Hr.
  eexists. split; [reflexivity |].
  unfold uuid_v7_to_timestamptz, uuid_v7_to_timestamp.
  rewrite decoded_value by reflexivity.
  rewrite generated_millis, millis_of_timespec_exact by assumption.
  split; reflexivity.
Qed.

Lemma generate_then_decode_witness :
  exists uuid : list byte,
    uuid_generate_v7 host_le = Return uuid
    /\ uuid_v7_to_timestamptz host_be uuid = Return 753315200123000
    /\ uuid_v7_to_timestamp host_be uuid = Return 753315200123000.
Proof.
  apply (generate_then_decode host_le host_be
           {| tv_sec := 1700000000; tv_nsec := 123456789 |}
           (fun i => byte.of_Z (255 - Z.of_nat i)));
    try reflexivity;
    try (unfold valid_timespec; cbn [tv_nsec]; lia);
    vm_compute; split; [discriminate | reflexivity].
Defined.

(** X3: in a generated UUID the twelve bits after the version nibble hold
    the position inside the millisecond in units of 1/4096 ms:
    [((tv_nsec mod 1000000) * 4096) / 1000000]. *)
Theorem generate_stores_fraction :
  forall (h : host) (t : timespec) (uuid : list byte),
    clock_realtime h = Some t ->
    valid_timespec t ->
    uuid_generate_v7 h = Return uuid ->
    uuid_fraction uuid = (tv_nsec t mod 1000000 * 4096) / 1000000.
Proof.
  intros h t uuid Hc Hv Hgen.
  rewrite uuid_generate_v7_layout, Hc in Hgen.
  destruct (strong_random h) as [r |]; [| discriminate Hgen].
  apply Return_inj in Hgen. subst uuid. unfold uuid_fraction.
  change (get (be_split 8 (v7_word t) ++ tail8 r) 6)
    with (byte.of_Z (Z.shiftr (v7_word t) 8)).
  change (get (be_split 8 (v7_word t) ++ tail8 r) 7)
    with (byte.of_Z (v7_word t)).
  rewrite v7_word_fraction. now apply submilli_fraction_arith.
Qed.

Lemma generate_stores_fraction_witness :
  clock_realtime host_le = Some {| tv_sec := 1700000000; tv_nsec := 123456789 |}
  /\ uuid_generate_v7 host_le = Return generated_le
  /\ uuid_fraction generated_le = (123456789 mod 1000000 * 4096) / 1000000.
Proof.
  split; [reflexivity |]. split; [reflexivity |].
  apply (generate_stores_fraction host_le
           {| tv_sec := 1700000000; tv_nsec := 123456789 |} generated_le).
  - reflexivity.
  - unfold valid_timespec. cbn [tv_nsec]. lia.
  - reflexivity.
Defined.

(** X4: the random bytes reach the UUID untouched except for the marker
    bits.  [uuid_generate_v7] keeps the low six bits of the first random
    byte in byte 8 and the next seven bytes in bytes 9-15;
    [uuid_uint64_to_v7] without zero fill keeps the low nibble of the first
    random byte in byte 6, the second in byte 7, the low six bits of the
    third in byte 8 and the last seven in bytes 9-15. *)
Theorem random_bits_are_kept :
  forall (h : host) (r : nat -> byte) (uuid : list byte),
    strong_random h = Some r ->
    (uuid_generate_v7 h = Return uuid ->
       Z.land (byte.unsigned (get uuid 8)) 0x3f
         = Z.land (byte.unsigned (r 0%nat)) 0x3f
       /\ skipn 9 uuid = map r (seq 1 7))
    /\ (forall ts, uuid_uint64_to_v7 h ts false = Return uuid ->
       Z.land (byte.unsigned (get uuid 6)) 0x0f
         = Z.land (byte.unsigned (r 0%nat)) 0x0f
       /\ get uuid 7 = r 1%nat
       /\ Z.land (byte.unsigned (get uuid 8)) 0x3f
         = Z.land (byte.unsigned (r 2%nat)) 0x3f
       /\ skipn 9 uuid = map r (seq 3 7)).
Proof.
  intros h r uuid Hr. split.
  - rewrite uuid_generate_v7_layout, Hr.
    destruct (clock_realtime h) as [t |]; [| discriminate].
    intros Hgen. apply Return_inj in Hgen. subst uuid. split.
    + change (get (be_split 8 (v7_word t) ++ tail8 r) 8)
        with (variant_bits (r 0%nat)).
      apply variant_bits_low.
    + reflexivity.
  - intros ts. rewrite (uuid_uint64_to_v7_random h ts r Hr).
    intros Henc. apply Return_inj in Henc. subst uuid.
    split; [| split; [| split]].
    + change (get (be_split 6 (millis_of_timestamp ts) ++ tail10 r) 6)
        with (version_bits (r 0%nat)).
      apply version_bits_low.
    + reflexivity.
    + change (get (be_split 6 (millis_of_timestamp ts) ++ tail10 r) 8)
        with (variant_bits (r 2%nat)).
      apply variant_bits_low.
    + reflexivity.
Qed.

Lemma random_bits_are_kept_witness :
  strong_random host_le = Some (fun i => byte.of_Z (255 - Z.of_nat i))
  /\ uuid_generate_v7 host_le = Return generated_le
  /\ Z.land (byte.unsigned (get generated_le 8)) 0x3f
      = Z.land (byte.unsigned (byte.of_Z 255)) 0x3f
  /\ skipn 9 generated_le
      = map (fun i => byte.of_Z (255 - Z.of_nat i)) (seq 1 7).
Proof.
  split; [reflexivity |]. split; [reflexivity |].
  destruct (random_bits_are_kept host_le
              (fun i => byte.of_Z (255 - Z.of_nat i)) generated_le)
    as [Hgen _]; [reflexivity |].
  apply Hgen. reflexivity.
Defined.

(** X5: what [uuid_generate_v7] does depends on the clock reading and the
    random bytes only: two hosts that agree on both get the same outcome,
    whatever their byte order and the contents of fresh memory. *)
Theorem generate_is_portable :
  forall h h' : host,
    clock_realtime h = clock_realtime h' ->
    strong_random h = strong_random h' ->
    uuid_generate_v7 h = uuid_generate_v7 h'.
Proof.
  intros h h' Hc Hr. rewrite !uuid_generate_v7_layout. now rewrite Hc, Hr.
Qed.

(** * Timestamps through both directions *)

Section RoundTrips.

Lemma wrapped_millis_range ts : 0 <= wrapped_millis ts < 2 ^ 48.
Proof. unfold wrapped_millis. apply Z.mod_pos_bound. lia. Qed.

Lemma wrapped_millis_in_range ts :
  0 <= (ts + EPOCH_DIFF_USECS) / 1000 < 2 ^ 48 ->
  wrapped_millis ts = (ts + EPOCH_DIFF_USECS) / 1000.
Proof.
  intros Hfit. unfold wrapped_millis.
  assert (Hsum : 0 <= ts + EPOCH_DIFF_USECS < 2 ^ 64).
  { generalize dependent (ts + EPOCH_DIFF_USECS). clear. intros x Hfit.
    Z.div_mod_to_equations. lia. }
  rewrite (Z.mod_small (ts + EPOCH_DIFF_USECS)) by exact Hsum.
  now apply Z.mod_small.
Qed.

(** What an entry point returned, when it returned. *)
Lemma encoded_result h ts arg1 uuid :
  uuid_timestamptz_to_v7 h ts arg1 = Return uuid ->
  exists r, uuid = be_split 6 (millis_of_timestamp (C.to_uint64 ts)) ++ tail10 r.
Proof.
  unfold uuid_timestamptz_to_v7. rewrite uuid_uint64_to_v7_layout.
  destruct (fill_source h _) as [r |]; [| discriminate].
  intros H. apply Return_inj in H. now exists r.
Qed.

Lemma encoded_millis ts r :
  uuid_millis (be_split 6 (millis_of_timestamp (C.to_uint64 ts)) ++ tail10 r)
  = wrapped_millis ts.
Proof.
  rewrite uuid_millis_app by apply length_be_split.
  rewrite be_combine_split, millis_of_timestamp_to_uint64. reflexivity.
Qed.

Lemma encoded_length m r : length (be_split 6 m ++ tail10 r) = UUID_LEN.
Proof. reflexivity. Qed.

End RoundTrips.

Lemma generate_is_portable_witness :
  clock_realtime host_later = clock_realtime host_later
  /\ uuid_generate_v7 host_later =
       uuid_generate_v7
         {| byte_order := BigEndian;
            clock_realtime := clock_realtime host_later;
            strong_random := strong_random host_later;
            palloc_junk := fun _ => Byte.xff;
            stack_junk := 7 |}.
Proof.
  split; [reflexivity |].
  apply (generate_is_portable host_later
           {| byte_order := BigEndian;
              clock_realtime := clock_realtime host_later;
              strong_random := strong_random host_later;
              palloc_junk := fun _ => Byte.xff;
              stack_junk := 7 |}); reflexivity.
Defined.

(** X6: for a signed 64-bit [ts] and either fill, decoding what an encoder
    returned gives [ts] cut to whole milliseconds exactly when the
    millisecond value [floor((ts + EPOCH_DIFF_USECS) / 1000)] lies in
    [0, 2^48): outside that range the trip never gives the timestamp
    back. *)
Theorem roundtrip_iff_in_range :
  forall (h h' : host) (ts : Z) (arg1 : option bool) (uuid : list byte),
    C.is_int64 ts ->
    uuid_timestamptz_to_v7 h ts arg1 = Return uuid ->
    (uuid_v7_to_timestamptz h' uuid =
       Return (1000 * ((ts + EPOCH_DIFF_USECS) / 1000) - EPOCH_DIFF_USECS)
     <-> 0 <= (ts + EPOCH_DIFF_USECS) / 1000 < 2 ^ 48).
Proof.
  intros h h' ts arg1 uuid _ Henc.
  destruct (encoded_result h ts arg1 uuid Henc) as [r ->].
  unfold uuid_v7_to_timestamptz.
  rewrite decoded_value by apply encoded_length.
  rewrite encoded_millis. pose proof (wrapped_millis_range ts) as Hw.
  split.
  - intros H. apply Return_inj in H.
    replace ((ts + EPOCH_DIFF_USECS) / 1000) with (wrapped_millis ts) by lia.
    exact Hw.
  - intros Hfit. rewrite (wrapped_millis_in_range ts Hfit). f_equal. lia.
Qed.

Lemma roundtrip_iff_in_range_witness :
  C.is_int64 (- 946684800000001)
  /\ uuid_timestamptz_to_v7 host_le (- 946684800000001) (Some true) =
       Return encoded_before_1970
  /\ ~ 0 <= (- 946684800000001 + EPOCH_DIFF_USECS) / 1000 < 2 ^ 48.
Proof.
  split; [unfold C.is_int64; lia |]. split; [reflexivity |].
  intros Hfit.
  apply (roundtrip_iff_in_range host_le host_be (- 946684800000001)
           (Some true) encoded_before_1970) in Hfit.
  - discriminate Hfit.
  - unfold C.is_int64. lia.
  - reflexivity.
Defined.

(** X7: whatever sixteen bytes are decoded, the result is a whole number
    of milliseconds and lies between the Unix epoch and 2^48 milliseconds
    after it: no UUID decodes to an instant before 1970-01-01. *)
Theorem decoded_range :
  forall (h : host) (uuid : list byte) (t : Z),
    length uuid = UUID_LEN ->
    uuid_v7_to_timestamptz h uuid = Return t ->
    0 <= unix_usecs t < 1000 * 2 ^ 48
    /\ unix_usecs t mod 1000 = 0
    /\ - EPOCH_DIFF_USECS <= t.
Proof.
  intros h uuid t Hlen Hdec. unfold uuid_v7_to_timestamptz in Hdec.
  rewrite decoded_value in Hdec by exact Hlen.
  apply Return_inj in Hdec. subst t. unfold unix_usecs.
  pose proof (uuid_millis_bound uuid) as Hm.
  replace (uuid_millis uuid * 1000 - EPOCH_DIFF_USECS + EPOCH_DIFF_USECS)
    with (uuid_millis uuid * 1000) by lia.
  split; [lia |]. split; [apply Z.mod_mul; lia | lia].
Qed.

Lemma decoded_range_witness :
  length scenario_uuid = UUID_LEN
  /\ uuid_v7_to_timestamptz host_le scenario_uuid = Return 763655590016000
  /\ 0 <= unix_usecs 763655590016000 < 1000 * 2 ^ 48.
Proof.
  split; [reflexivity |]. split; [reflexivity |].
  destruct (decoded_range host_le scenario_uuid 763655590016000)
    as [Hr _]; [reflexivity | reflexivity | exact Hr].
Defined.

(** X8: decoding any sixteen bytes and encoding the result with zero fill
    gives back the first six bytes followed by 70 00 80 00 .. 00; with
    either fill the first six bytes are those of the UUID decoded. *)
Theorem decode_then_encode :
  forall (h h' : host) (uuid : list byte),
    length uuid = UUID_LEN ->
    exists t : Z,
      uuid_v7_to_timestamptz h uuid = Return t
      /\ uuid_timestamptz_to_v7 h' t (Some true) =
           Return (firstn 6 uuid ++ zero_fill_tail)
      /\ (forall arg1 uuid',
            uuid_timestamptz_to_v7 h' t arg1 = Return uuid' ->
            firstn 6 uuid' = firstn 6 uuid).
Proof.
  intros h h' uuid Hlen. unfold uuid_v7_to_timestamptz.
  rewrite decoded_value by exact Hlen.
  eexists. split; [reflexivity |].
  pose proof (uuid_millis_bound uuid) as Hm.
  assert (Hms : millis_of_timestamp
                  (C.to_uint64 (uuid_millis uuid * 1000 - EPOCH_DIFF_USECS))
                = uuid_millis uuid).
  { rewrite millis_of_timestamp_to_uint64.
    replace (uuid_millis uuid * 1000 - EPOCH_DIFF_USECS + EPOCH_DIFF_USECS)
      with (uuid_millis uuid * 1000) by lia.
    rewrite Z.mod_small by lia. apply Z.div_mul. lia. }
  assert (Hbytes : be_split 6 (uuid_millis uuid) = firstn 6 uuid).
  { unfold uuid_millis.
    replace 6%nat with (length (firstn 6 uuid)) at 1
      by (rewrite length_firstn, Hlen; reflexivity).
    apply be_split_combine. }
  split.
  - unfold uuid_timestamptz_to_v7.
    now rewrite uuid_uint64_to_v7_zero, Hms, Hbytes.
  - intros arg1 uuid' Henc.
    destruct (encoded_result h' _ arg1 uuid' Henc) as [r ->].
    rewrite Hms.
    destruct (encoded_shape (uuid_millis uuid) r) as (_ & Hfirst & _).
    now rewrite Hfirst.
Qed.

Lemma decode_then_encode_witness :
  length scenario_uuid = UUID_LEN
  /\ exists t : Z,
       uuid_v7_to_timestamptz host_le scenario_uuid = Return t
       /\ uuid_timestamptz_to_v7 host_be t (Some true) =
            Return (firstn 6 scenario_uuid ++ zero_fill_tail)
       /\ (forall arg1 uuid',
             uuid_timestamptz_to_v7 host_be t arg1 = Return uuid' ->
             firstn 6 uuid' = firstn 6 scenario_uuid).
Proof.
  split; [reflexivity |].
  apply (decode_then_encode host_le host_be scenario_uuid). reflexivity.
Defined.

(** * Order *)

Section Order.

Lemma bytes_compare_antisym a :
  forall b, bytes_compare b a = CompOpp (bytes_compare a b).
Proof.
  induction a as [| x a IH]; intros [| y b]; try reflexivity.
  cbn [bytes_compare]. unfold byte.compare.
  rewrite (Z.compare_antisym (byte.unsigned x) (byte.unsigned y)).
  destruct (byte.unsigned x ?= byte.unsigned y); cbn [CompOpp];
    [apply IH | reflexivity | reflexivity].
Qed.

Lemma bytes_compare_app_same p a b :
  bytes_compare (p ++ a) (p ++ b) = bytes_compare a b.
Proof.
  induction p as [| x p IH]; [reflexivity |].
  cbn [app bytes_compare]. unfold byte.compare.
  now rewrite Z.compare_refl.
Qed.

Lemma bytes_below_not_gt a b : bytes_below a b -> bytes_compare a b <> Gt.
Proof.
  unfold bytes_below. induction 1 as [| x y a b Hxy _ IH].
  - discriminate.
  - cbn [bytes_compare]. unfold byte.compare.
    destruct (Z.compare_spec (byte.unsigned x) (byte.unsigned y));
      [exact IH | discriminate | lia].
Qed.

Lemma version_bits_least b :
  byte.unsigned Byte.x70 <= byte.unsigned (version_bits b).
Proof. destruct b; discriminate. Qed.

Lemma variant_bits_least b :
  byte.unsigned Byte.x80 <= byte.unsigned (variant_bits b).
Proof. destruct b; discriminate. Qed.

Lemma zero_fill_tail_least r : bytes_below zero_fill_tail (tail10 r).
Proof.
  unfold bytes_below, zero_fill_tail, tail10.
  repeat (apply Forall2_cons; [| try apply Forall2_nil]);
    first [apply version_bits_least | apply variant_bits_least
          | apply byte.unsigned_range].
Qed.

(** Sixteen-byte buffers order as their millisecond fields, when those
    differ. *)
Lemma bytes_compare_millis u1 u2 :
  length u1 = UUID_LEN -> length u2 = UUID_LEN ->
  uuid_millis u1 < uuid_millis u2 -> bytes_compare u1 u2 = Lt.
Proof.
  intros H1 H2 Hlt.
  rewrite <- (firstn_skipn 6 u1), <- (firstn_skipn 6 u2).
  apply bytes_compare_be; [| exact Hlt].
  rewrite !length_firstn, H1, H2. reflexivity.
Qed.

(** The word of a later clock reading is larger as soon as the readings
    are 245 ns apart. *)
Lemma v7_word_increases t1 t2 :
  valid_timespec t1 -> valid_timespec t2 ->
  0 <= unix_millis t1 -> unix_millis t2 < 2 ^ 48 ->
  unix_nanos t1 + 245 <= unix_nanos t2 ->
  0 <= v7_word t1 < v7_word t2 /\ v7_word t2 < 2 ^ 64.
Proof.
  intros Hv1 Hv2 H0 H48 Hns.
  assert (Hle : unix_millis t1 <= unix_millis t2).
  { revert Hns. unfold unix_nanos, unix_millis, valid_timespec in *.
    Z.div_mod_to_equations. lia. }
  rewrite !v7_word_sum.
  rewrite !millis_of_timespec_exact by (try assumption; lia).
  rewrite !submilli_fraction_arith by assumption.
  revert Hns Hle H0 H48. unfold unix_nanos, unix_millis, valid_timespec in *.
  destruct t1 as [s1 n1], t2 as [s2 n2]. cbn [tv_sec tv_nsec] in *.
  intros Hns Hle H0 H48.
  assert (Hn1 : n1 = 1000000 * (n1 / 1000000) + n1 mod 1000000)
    by (apply Z.div_mod; lia).
  assert (Hn2 : n2 = 1000000 * (n2 / 1000000) + n2 mod 1000000)
    by (apply Z.div_mod; lia).
  pose proof (Z.mod_pos_bound n1 1000000 ltac:(lia)) as Hr1.
  pose proof (Z.mod_pos_bound n2 1000000 ltac:(lia)) as Hr2.
  generalize dependent (n1 mod 1000000). intros r1 Hn1 Hr1.
  generalize dependent (n2 mod 1000000). intros r2 Hn2 Hr2.
  generalize dependent (n1 / 1000000). intros q1 Hn1.
  generalize dependent (n2 / 1000000). intros q2 Hn2.
  intros. Z.div_mod_to_equations. lia.
Qed.

Lemma millis_of_timestamp_in_range ts :
  0 <= (ts + EPOCH_DIFF_USECS) / 1000 < 2 ^ 48 ->
  millis_of_timestamp (C.to_uint64 ts) = (ts + EPOCH_DIFF_USECS) / 1000.
Proof.
  intros Hfit. rewrite millis_of_timestamp_to_uint64.
  assert (Hsum : 0 <= ts + EPOCH_DIFF_USECS < 2 ^ 64).
  { generalize dependent (ts + EPOCH_DIFF_USECS). clear. intros x Hfit.
    Z.div_mod_to_equations. lia. }
  now rewrite Z.mod_small by exact Hsum.
Qed.

End Order.

(** X9: the byte order of UUIDs is the order of their timestamps.  For two
    sixteen-byte UUIDs, a smaller decoded timestamp makes the UUID smaller
    in byte-wise lexicographic order, and a smaller UUID never has the
    larger timestamp. *)
Theorem decode_respects_byte_order :
  forall (h1 h2 : host) (u1 u2 : list byte) (t1 t2 : Z),
    length u1 = UUID_LEN ->
    length u2 = UUID_LEN ->
    uuid_v7_to_timestamptz h1 u1 = Return t1 ->
    uuid_v7_to_timestamptz h2 u2 = Return t2 ->
    (t1 < t2 -> bytes_compare u1 u2 = Lt)
    /\ (bytes_compare u1 u2 = Lt -> t1 <= t2).
Proof.
  intros h1 h2 u1 u2 t1 t2 H1 H2 Hd1 Hd2.
  unfold uuid_v7_to_timestamptz in Hd1, Hd2.
  rewrite decoded_value in Hd1, Hd2 by assumption.
  apply Return_inj in Hd1. apply Return_inj in Hd2. subst t1 t2.
  split.
  - intros Hlt. apply bytes_compare_millis; [assumption | assumption | lia].
  - intros Hc.
    destruct (Z_lt_le_dec (uuid_millis u2) (uuid_millis u1)) as [Hgt | Hle];
      [| lia].
    exfalso. pose proof (bytes_compare_millis u2 u1 H2 H1 Hgt) as Hrev.
    rewrite (bytes_compare_antisym u1 u2), Hc in Hrev. discriminate Hrev.
Qed.

Lemma decode_respects_byte_order_witness :
  length generated_le = UUID_LEN
  /\ length scenario_uuid = UUID_LEN
  /\ uuid_v7_to_timestamptz host_le generated_le = Return 753315200123000
  /\ uuid_v7_to_timestamptz host_be scenario_uuid = Return 763655590016000
  /\ bytes_compare generated_le scenario_uuid = Lt.
Proof.
  do 4 (split; [reflexivity |]).
  destruct (decode_respects_byte_order host_le host_be
              generated_le scenario_uuid 753315200123000 763655590016000)
    as [Hlt _];
    [reflexivity | reflexivity | reflexivity | reflexivity |].
  apply Hlt. reflexivity.
Defined.

(** X10: encoding keeps the order of in-range timestamps.  If the
    millisecond values satisfy [0 <= ms(ts1) < ms(ts2) < 2^48], the UUID of
    [ts1] is below the UUID of [ts2] in byte-wise lexicographic order,
    whatever fill either call used. *)
Theorem encode_keeps_order :
  forall (h1 h2 : host) (ts1 ts2 : Z) (a1 a2 : option bool)
         (u1 u2 : list byte),
    0 <= (ts1 + EPOCH_DIFF_USECS) / 1000 ->
    (ts1 + EPOCH_DIFF_USECS) / 1000 < (ts2 + EPOCH_DIFF_USECS) / 1000 ->
    (ts2 + EPOCH_DIFF_USECS) / 1000 < 2 ^ 48 ->
    uuid_timestamptz_to_v7 h1 ts1 a1 = Return u1 ->
    uuid_timestamptz_to_v7 h2 ts2 a2 = Return u2 ->
    bytes_compare u1 u2 = Lt.
Proof.
  intros h1 h2 ts1 ts2 a1 a2 u1 u2 H0 Hlt H48 He1 He2.
  destruct (encoded_result h1 ts1 a1 u1 He1) as [r1 ->].
  destruct (encoded_result h2 ts2 a2 u2 He2) as [r2 ->].
  apply bytes_compare_millis; try apply encoded_length.
  rewrite !encoded_millis, !wrapped_millis_in_range by lia. exact Hlt.
Qed.

Lemma encode_keeps_order_witness :
  uuid_timestamptz_to_v7 host_le 753315200000999 None =
    Return [Byte.x01; Byte.x8b; Byte.xcf; Byte.xe5; Byte.x68; Byte.x00;
            Byte.x7f; Byte.xfe; Byte.xbd; Byte.xfc; Byte.xfb; Byte.xfa;
            Byte.xf9; Byte.xf8; Byte.xf7; Byte.xf6]
  /\ uuid_timestamptz_to_v7 host_be 753315200123000 (Some true) =
    Return (firstn 6 generated_le ++ zero_fill_tail)
  /\ bytes_compare
       [Byte.x01; Byte.x8b; Byte.xcf; Byte.xe5; Byte.x68; Byte.x00;
        Byte.x7f; Byte.xfe; Byte.xbd; Byte.xfc; Byte.xfb; Byte.xfa;
        Byte.xf9; Byte.xf8; Byte.xf7; Byte.xf6]
       (firstn 6 generated_le ++ zero_fill_tail) = Lt.
Proof.
  split; [reflexivity |]. split; [reflexivity |].
  apply (encode_keeps_order host_le host_be
           753315200000999 753315200123000 None (Some true)).
  - vm_compute. discriminate.
  - vm_compute. reflexivity.
  - vm_compute. reflexivity.
  - reflexivity.
  - reflexivity.
Defined.

(** X11: the zero-filled UUID of a timestamp is a lower bound.  If
    [0 <= ms(ts) <= ms(ts') < 2^48], the zero-filled UUID of [ts] is not
    above any UUID an encoder returns for [ts'], whatever the random
    bytes. *)
Theorem zero_fill_is_lower_bound :
  forall (h h' : host) (ts ts' : Z) (arg1 : option bool) (u u' : list byte),
    0 <= (ts + EPOCH_DIFF_USECS) / 1000 ->
    (ts + EPOCH_DIFF_USECS) / 1000 <= (ts' + EPOCH_DIFF_USECS) / 1000 ->
    (ts' + EPOCH_DIFF_USECS) / 1000 < 2 ^ 48 ->
    uuid_timestamptz_to_v7 h ts (Some true) = Return u ->
    uuid_timestamptz_to_v7 h' ts' arg1 = Return u' ->
    bytes_compare u u' <> Gt.
Proof.
  intros h h' ts ts' arg1 u u' H0 Hle H48 He He'.
  destruct (encoded_result h' ts' arg1 u' He') as [r' ->].
  unfold uuid_timestamptz_to_v7 in He.
  rewrite uuid_uint64_to_v7_zero in He. apply Return_inj in He. subst u.
  rewrite <- tail10_zero.
  destruct (Z_lt_le_dec ((ts + EPOCH_DIFF_USECS) / 1000)
                        ((ts' + EPOCH_DIFF_USECS) / 1000)) as [Hlt | Hge].
  - rewrite bytes_compare_millis; [discriminate | | |];
      try apply encoded_length.
    rewrite !encoded_millis, !wrapped_millis_in_range by lia. exact Hlt.
  - assert (Hsame : millis_of_timestamp (C.to_uint64 ts)
                    = millis_of_timestamp (C.to_uint64 ts')).
    { rewrite !millis_of_timestamp_in_range by lia. lia. }
    rewrite Hsame, bytes_compare_app_same, tail10_zero.
    apply bytes_below_not_gt, zero_fill_tail_least.
Qed.

Lemma zero_fill_is_lower_bound_witness :
  uuid_timestamptz_to_v7 host_le 753315200000000 (Some true) =
    Return [Byte.x01; Byte.x8b; Byte.xcf; Byte.xe5; Byte.x68; Byte.x00;
            Byte.x70; Byte.x00; Byte.x80; Byte.x00; Byte.x00; Byte.x00;
            Byte.x00; Byte.x00; Byte.x00; Byte.x00]
  /\ uuid_timestamptz_to_v7 host_be 753315200000999 None =
    Return [Byte.x01; Byte.x8b; Byte.xcf; Byte.xe5; Byte.x68; Byte.x00;
            Byte.x70; Byte.x01; Byte.x82; Byte.x03; Byte.x04; Byte.x05;
            Byte.x06; Byte.x07; Byte.x08; Byte.x09]
  /\ bytes_compare
       [Byte.x01; Byte.x8b; Byte.xcf; Byte.xe5; Byte.x68; Byte.x00;
        Byte.x70; Byte.x00; Byte.x80; Byte.x00; Byte.x00; Byte.x00;
        Byte.x00; Byte.x00; Byte.x00; Byte.x00]
       [Byte.x01; Byte.x8b; Byte.xcf; Byte.xe5; Byte.x68; Byte.x00;
        Byte.x70; Byte.x01; Byte.x82; Byte.x03; Byte.x04; Byte.x05;
        Byte.x06; Byte.x07; Byte.x08; Byte.x09] <> Gt.
Proof.
  split; [reflexivity |]. split; [reflexivity |].
  apply (zero_fill_is_lower_bound host_le host_be
           753315200000000 753315200000999 None).
  - vm_compute. discriminate.
  - vm_compute. discriminate.
  - vm_compute. reflexivity.
  - reflexivity.
  - reflexivity.
Defined.

Section Instants.

Lemma pg_timestamp_millis t :
  valid_timespec t ->
  (pg_timestamp_of t + EPOCH_DIFF_USECS) / 1000 = unix_millis t.
Proof.
  unfold pg_timestamp_of, unix_nanos, unix_millis, valid_timespec.
  intros Hv.
  replace (tv_sec t * 1000000000 + tv_nsec t)
    with (tv_sec t * 1000 * 1000000 + tv_nsec t) by lia.
  replace ((tv_sec t * 1000 * 1000000 + tv_nsec t) / 1000
           - EPOCH_DIFF_USECS + EPOCH_DIFF_USECS)
    with ((tv_sec t * 1000 * 1000000 + tv_nsec t) / 1000) by lia.
  rewrite Z.div_div by lia. change (1000 * 1000) with 1000000.
  now rewrite Z.div_add_l by lia.
Qed.

Lemma v7_word_bytes_value t :
  0 <= v7_word t < 2 ^ 64 -> be_combine (be_split 8 (v7_word t)) = v7_word t.
Proof. intros Hw. rewrite be_combine_split. now apply Z.mod_small. Qed.

End Instants.

(** X12: generated UUIDs order by clock reading down to 245 ns.  For two
    readings as [clock_gettime] delivers them, with millisecond counts in
    [0, 2^48) and the second at least 245 ns after the first, the first
    UUID is below the second in byte-wise lexicographic order, whatever
    the random bytes of either call. *)
Theorem generate_orders_within_millisecond :
  forall (h1 h2 : host) (t1 t2 : timespec) (r1 r2 : nat -> byte),
    clock_realtime h1 = Some t1 ->
    clock_realtime h2 = Some t2 ->
    strong_random h1 = Some r1 ->
    strong_random h2 = Some r2 ->
    valid_timespec t1 ->
    valid_timespec t2 ->
    0 <= unix_millis t1 ->
    unix_millis t2 < 2 ^ 48 ->
    unix_nanos t1 + 245 <= unix_nanos t2 ->
    exists u1 u2 : list byte,
      uuid_generate_v7 h1 = Return u1
      /\ uuid_generate_v7 h2 = Return u2
      /\ bytes_compare u1 u2 = Lt.
Proof.
  intros h1 h2 t1 t2 r1 r2 Hc1 Hc2 Hr1 Hr2 Hv1 Hv2 H0 H48 Hns.
  rewrite !uuid_generate_v7_layout, Hc1, Hc2, Hr1, Hr2.
  eexists. eexists. split; [reflexivity |]. split; [reflexivity |].
  destruct (v7_word_increases t1 t2 Hv1 Hv2 H0 H48 Hns) as [Hlt Hhi].
  apply bytes_compare_be.
  - now rewrite !length_be_split.
  - rewrite !v7_word_bytes_value by lia. lia.
Qed.

Lemma generate_orders_within_millisecond_witness :
  exists u1 u2 : list byte,
    uuid_generate_v7 host_le = Return u1
    /\ uuid_generate_v7 host_later = Return u2
    /\ bytes_compare u1 u2 = Lt.
Proof.
  apply (generate_orders_within_millisecond host_le host_later
           {| tv_sec := 1700000000; tv_nsec := 123456789 |}
           {| tv_sec := 1700000000; tv_nsec := 123457034 |}
           (fun i => byte.of_Z (255 - Z.of_nat i))
           (fun _ => Byte.x00));
    try reflexivity;
    try (unfold valid_timespec; cbn [tv_nsec]; lia);
    vm_compute; discriminate.
Defined.

(** X13: generating and encoding agree on the timestamp.  A UUID
    generated at clock reading [t] (nanoseconds below one second,
    millisecond count in [0, 2^48)) starts with the same six bytes as any
    UUID an encoder returns for the PostgreSQL timestamp of [t]. *)
Theorem generate_matches_encode :
  forall (h h' : host) (t : timespec) (arg1 : option bool)
         (u u' : list byte),
    clock_realtime h = Some t ->
    valid_timespec t ->
    0 <= unix_millis t < 2 ^ 48 ->
    uuid_generate_v7 h = Return u ->
    uuid_timestamptz_to_v7 h' (pg_timestamp_of t) arg1 = Return u' ->
    firstn 6 u = firstn 6 u' /\ uuid_millis u = unix_millis t.
Proof.
  intros h h' t arg1 u u' Hc Hv Hm Hgen Henc.
  rewrite uuid_generate_v7_layout, Hc in Hgen.
  destruct (strong_random h) as [r |]; [| discriminate Hgen].
  apply Return_inj in Hgen. subst u.
  destruct (encoded_result h' _ arg1 u' Henc) as [r' ->].
  assert (Hfit : 0 <= (pg_timestamp_of t + EPOCH_DIFF_USECS) / 1000 < 2 ^ 48)
    by (rewrite pg_timestamp_millis by exact Hv; exact Hm).
  rewrite millis_of_timestamp_in_range, pg_timestamp_millis by assumption.
  destruct (encoded_shape (unix_millis t) r') as (_ & Hfirst & _).
  rewrite Hfirst, generated_millis, millis_of_timespec_exact by assumption.
  split; [| reflexivity].
  change (firstn 6 (be_split 8 (v7_word t) ++ tail8 r))
    with (be_split 6 (Z.shiftr (v7_word t) 16)).
  now rewrite v7_word_millis, millis_of_timespec_exact by assumption.
Qed.

Lemma generate_matches_encode_witness :
  uuid_generate_v7 host_le = Return generated_le
  /\ uuid_timestamptz_to_v7 host_be 753315200123456 (Some true) =
       Return (firstn 6 generated_le ++ zero_fill_tail)
  /\ firstn 6 generated_le
      = firstn 6 (firstn 6 generated_le ++ zero_fill_tail)
  /\ uuid_millis generated_le = 1700000000123.
Proof.
  split; [reflexivity |]. split; [reflexivity |].
  apply (generate_matches_encode host_le host_be
           {| tv_sec := 1700000000; tv_nsec := 123456789 |} (Some true)).
  - reflexivity.
  - unfold valid_timespec. cbn [tv_nsec]. lia.
  - vm_compute. split; [discriminate | reflexivity].
  - reflexivity.
  - reflexivity.
Defined.

(** X14: the zero-filled UUID identifies the millisecond and nothing
    more.  For two timestamps with millisecond values in [0, 2^48), the
    zero-filled UUIDs are the same sixteen bytes exactly when the
    millisecond values are equal: microseconds inside a millisecond are
    cut off, not rounded. *)
Theorem zero_fill_identifies_millisecond :
  forall (h h' : host) (ts ts' : Z) (u u' : list byte),
    0 <= (ts + EPOCH_DIFF_USECS) / 1000 < 2 ^ 48 ->
    0 <= (ts' + EPOCH_DIFF_USECS) / 1000 < 2 ^ 48 ->
    uuid_timestamptz_to_v7 h ts (Some true) = Return u ->
    uuid_timestamptz_to_v7 h' ts' (Some true) = Return u' ->
    (u = u' <->
     (ts + EPOCH_DIFF_USECS) / 1000 = (ts' + EPOCH_DIFF_USECS) / 1000).
Proof.
  intros h h' ts ts' u u' Hfit Hfit' He He'.
  unfold uuid_timestamptz_to_v7 in He, He'.
  rewrite uuid_uint64_to_v7_zero in He, He'.
  apply Return_inj in He. apply Return_inj in He'. subst u u'.
  rewrite <- tail10_zero. split.
  - intros Heq. apply (f_equal uuid_millis) in Heq.
    rewrite !encoded_millis, !wrapped_millis_in_range in Heq by assumption.
    exact Heq.
  - intros Heq. rewrite !millis_of_timestamp_in_range by assumption.
    now rewrite Heq.
Qed.

Lemma zero_fill_identifies_millisecond_witness :
  uuid_timestamptz_to_v7 host_le 753315200123000 (Some true) =
    Return (firstn 6 generated_le ++ zero_fill_tail)
  /\ uuid_timestamptz_to_v7 host_be 753315200123999 (Some true) =
    Return (firstn 6 generated_le ++ zero_fill_tail)
  /\ (753315200123000 + EPOCH_DIFF_USECS) / 1000
      = (753315200123999 + EPOCH_DIFF_USECS) / 1000.
Proof.
  split; [reflexivity |]. split; [reflexivity |].
  apply (zero_fill_identifies_millisecond host_le host_be
           753315200123000 753315200123999
           (firstn 6 generated_le ++ zero_fill_tail)
           (firstn 6 generated_le ++ zero_fill_tail)).
  - vm_compute. split; [discriminate | reflexivity].
  - vm_compute. split; [discriminate | reflexivity].
  - reflexivity.
  - reflexivity.
  - reflexivity.
Defined.
